(** * The ralph-loop stop hook: a shallow embedding and its properties

    Source: [plugins/ralph-loop/hooks/stop-hook.sh].

    The hook is a bash script run with [set -euo pipefail].  Its data are
    byte strings and text files; its operations are [sed], [grep], [awk],
    [tr], bash parameter expansion and bash integer arithmetic.  Each of
    them is written out below as a function on strings, with the line of
    the script it comes from.

    Conventions of the model:
    - a text file, and the stream between two commands of a pipeline, is a
      list of lines (each line without its terminating newline);
    - the file system is a finite map from paths to files;
    - the shell's own diagnostics (arithmetic errors, unbound variables) are
      not part of the modelled error stream, only the script's [echo >&2];
    - input bytes are never NUL;
    - the script sets no locale: the model is the script in the POSIX
      locale, where [sed], [grep], [awk] and [tr] work on bytes and
      [[:space:]] is blank, tab, newline, vertical tab, form feed and
      carriage return. *)

From Stdlib Require Import ZArith Ascii String List Lia Bool.
From stdpp Require Import base gmap strings list pretty.
Import ListNotations.

(** ** Characters that cannot be written inside a literal *)

Definition LF : ascii := "010"%char.
Definition CR : ascii := "013"%char.
Definition TAB : ascii := "009"%char.
Definition DQ : ascii := "034"%char.
Definition BS : ascii := "092"%char.

Definition str (c : ascii) : string := String c "".

(** [q s] is [s] between two double quotes. *)
Definition q (s : string) : string := String DQ (s +:+ str DQ).

Module Text.

(** The text [s] cut at every newline; a text without newline is one line. *)
Fixpoint split_nl (s : string) : list string :=
  match s with
  | "" => [""]
  | String c r =>
      if Ascii.eqb c LF then "" :: split_nl r
      else match split_nl r with
           | l :: ls => String c l :: ls
           | [] => [str c]
           end
  end.

(** The bytes of a stream of lines. *)
Fixpoint unlines (ls : list string) : string :=
  match ls with
  | [] => ""
  | l :: r => l +:+ String LF (unlines r)
  end.

(** Command substitution removes every trailing newline. *)
Fixpoint strip_nl (s : string) : string :=
  match s with
  | "" => ""
  | String c r =>
      match strip_nl r with
      | "" => if Ascii.eqb c LF then "" else str c
      | r' => String c r'
      end
  end.

(** [$( ... )]: the output of a pipeline as the value of a variable. *)
Definition cmdsubst (ls : list string) : string := strip_nl (unlines ls).

Definition is_echo_flag (c : ascii) : bool :=
  Ascii.eqb c "n" || Ascii.eqb c "e" || Ascii.eqb c "E".

Fixpoint all_chars (p : ascii -> bool) (s : string) : bool :=
  match s with
  | "" => true
  | String c r => p c && all_chars p r
  end.

Fixpoint has_char (c : ascii) (s : string) : bool :=
  match s with
  | "" => false
  | String d r => Ascii.eqb c d || has_char c r
  end.

(** [echo $s] with [s] quoted, bash's builtin: a single argument of the form [-n], [-e],
    [-E] or a mix of these letters is read as options; anything else is
    written followed by a newline. *)
Definition echo (s : string) : list string :=
  match s with
  | String "-" (String c r as flags) =>
      if all_chars is_echo_flag flags
      then (if has_char "n" flags then [] else [""])
      else split_nl s
  | _ => split_nl s
  end.

Fixpoint sdrop (n : nat) (s : string) : string :=
  match n, s with
  | O, _ => s
  | S k, String _ r => sdrop k r
  | S _, "" => ""
  end.

(** [grep PAT] for a pattern without special characters: the lines that
    contain it. *)
Fixpoint contains (pat s : string) : bool :=
  String.prefix pat s ||
  match s with
  | "" => false
  | String _ r => contains pat r
  end.

(** [sed 's/PAT/REP/g'] on one line, for a literal, non-empty [PAT]:
    occurrences are replaced from left to right, without overlap.  [skip]
    counts the characters of an occurrence still to be passed over. *)
Fixpoint replace_go (pat rep : string) (skip : nat) (s : string) : string :=
  match s with
  | "" => ""
  | String c r =>
      match skip with
      | S k => replace_go pat rep k r
      | O =>
          if String.prefix pat s
          then rep +:+ replace_go pat rep (String.length pat - 1) r
          else String c (replace_go pat rep 0 r)
      end
  end.

Definition replace_all (pat rep s : string) : string := replace_go pat rep 0 s.

(** The same on a stream; a replacement may hold newlines, after which the
    next command of the pipeline sees more lines. *)
Definition sed_g (pat rep : string) (ls : list string) : list string :=
  concat (map (fun l => split_nl (replace_all pat rep l)) ls).

(** The last occurrence of [pat] in [s]: what is before it and after it. *)
Fixpoint split_last (pat s : string) : option (string * string) :=
  match s with
  | "" => if String.eqb pat "" then Some ("", "") else None
  | String c r =>
      match split_last pat r with
      | Some (a, b) => Some (String c a, b)
      | None =>
          if String.prefix pat s
          then Some ("", sdrop (String.length pat) s)
          else None
      end
  end.

(** [s] without its last character, when that is [c]. *)
Fixpoint chop (c : ascii) (s : string) : option string :=
  match s with
  | "" => None
  | String d "" => if Ascii.eqb c d then Some "" else None
  | String d r => option_map (String d) (chop c r)
  end.

(** The longest prefix of characters satisfying [p], and the rest. *)
Fixpoint span (p : ascii -> bool) (s : string) : string * string :=
  match s with
  | "" => ("", "")
  | String c r =>
      if p c then let '(a, b) := span p r in (String c a, b) else ("", s)
  end.

Fixpoint remove_chars (p : ascii -> bool) (s : string) : string :=
  match s with
  | "" => ""
  | String c r => if p c then remove_chars p r else String c (remove_chars p r)
  end.

(** A line holds no newline. *)
Definition no_lf (l : string) : Prop := has_char LF l = false.

(** [tail -1]. *)
Definition tail1 (ls : list string) : list string :=
  match last ls with
  | Some l => [l]
  | None => []
  end.

End Text.

(** ** Bash integer arithmetic *)

Module Arith.

(** [intmax_t] is 64 bits wide; overflow wraps around. *)
Definition wrap64 (z : Z) : Z := ((z + 2 ^ 63) mod 2 ^ 64 - 2 ^ 63)%Z.

(** The value of a decimal digit: its code less the code of [0]. *)
Definition digit (c : ascii) : option Z :=
  let code := Z.of_N (N_of_ascii c) in
  if ((48 <=? code) && (code <=? 57))%Z then Some (code - 48)%Z else None.

Definition is_digit (c : ascii) : bool :=
  match digit c with Some _ => true | None => false end.

(** Lines 31 and 42, the test against [^[0-9]+$]. *)
Definition is_number (s : string) : bool :=
  match s with
  | "" => false
  | _ => Text.all_chars is_digit s
  end.

(** Reading the digits of a constant in base [base]: a digit that is not
    below the base is an error (value too great for base). *)
Fixpoint strlong_go (base acc : Z) (s : string) : option Z :=
  match s with
  | "" => Some acc
  | String c r =>
      match digit c with
      | Some d =>
          if (d <? base)%Z
          then strlong_go base (wrap64 (acc * base + d)) r
          else None
      | None => None
      end
  end.

(** The value bash gives a string of digits inside [[[ ]]] and [$(( ))]:
    a leading zero makes the constant octal. *)
Definition strlong (s : string) : option Z :=
  match s with
  | String "0" "" => Some 0%Z
  | String "0" r => strlong_go 8 0 r
  | _ => strlong_go 10 0 s
  end.

(** [[[ a -gt b ]]] and [[[ a -ge b ]]]: an operand that does not evaluate
    makes the test fail. *)
Definition test_gt (a b : string) : bool :=
  match strlong a, strlong b with
  | Some x, Some y => (y <? x)%Z
  | _, _ => false
  end.

Definition test_ge (a b : string) : bool :=
  match strlong a, strlong b with
  | Some x, Some y => (y <=? x)%Z
  | _, _ => false
  end.

(** [$((v + 1))] (line 140), printed in base ten. *)
Definition succ_string (v : string) : option string :=
  match strlong v with
  | Some x => Some (pretty (wrap64 (x + 1)))
  | None => None
  end.

(** The number a string of digits denotes when read in base ten. *)
Fixpoint decimal_go (acc : Z) (s : string) : Z :=
  match s with
  | "" => acc
  | String c r =>
      match digit c with
      | Some d => decimal_go (acc * 10 + d) r
      | None => acc
      end
  end.

Definition decimal (s : string) : Z := decimal_go 0 s.

(** A numeral without superfluous leading zero. *)
Definition canonical (s : string) : bool :=
  is_number s &&
  match s with
  | String "0" (String _ _) => false
  | _ => true
  end.

End Arith.

(** ** State store: the state file *)

Module StateStore.
Import Text.

Definition RALPH_STATE_FILE : string := ".claude/ralph-loop.local.md".

Definition is_delim (l : string) : bool := String.eqb l "---".
Definition not_delim (l : string) : bool := negb (is_delim l).

(** Line 24: [sed -n '/^---$/,/^---$/{ /^---$/d; p; }'].  A range opens at
    a [---] line and closes at the next one; the lines of a range other
    than [---] are printed.  A later [---] line opens a new range. *)
Fixpoint sed_frontmatter (in_range : bool) (ls : list string) : list string :=
  match ls with
  | [] => []
  | l :: r =>
      if is_delim l then sed_frontmatter (negb in_range) r
      else if in_range then l :: sed_frontmatter true r
      else sed_frontmatter false r
  end.

Definition FRONTMATTER (state : list string) : string :=
  cmdsubst (sed_frontmatter false state).

Fixpoint drop_spaces (s : string) : string :=
  match s with
  | String " " r => drop_spaces r
  | _ => s
  end.

(** [sed 's/KEY *//']: the first occurrence of [key] in the line is
    removed, with the spaces that follow it. *)
Fixpoint sed_del_key (key s : string) : string :=
  if String.prefix key s then drop_spaces (sdrop (String.length key) s)
  else match s with
       | "" => ""
       | String c r => String c (sed_del_key key r)
       end.

(** Line 28, last [sed]: a line that starts and ends with a double quote
    loses both. *)
Definition strip_quotes (s : string) : string :=
  match s with
  | String c r =>
      if Ascii.eqb c DQ
      then match chop DQ r with Some m => m | None => s end
      else s
  | "" => ""
  end.

(** [grep '^KEY']: [None] is exit status 1 (no line selected). *)
Definition grep_prefix (key : string) (ls : list string) : option (list string) :=
  match List.filter (String.prefix key) ls with
  | [] => None
  | m => Some m
  end.

(** Lines 25, 26 and 28: [echo $FRONTMATTER | grep '^KEY' | sed ...].
    Under [pipefail] the status of the pipeline is grep's when grep
    selects nothing; [None] stands for that failure. *)
Definition field (key : string) (post : string -> string) (fm : string)
  : option string :=
  match grep_prefix key (echo fm) with
  | Some m => Some (cmdsubst (map (fun l => post (sed_del_key key l)) m))
  | None => None
  end.

Definition ITERATION (fm : string) : option string :=
  field "iteration:" id fm.
Definition MAX_ITERATIONS (fm : string) : option string :=
  field "max_iterations:" id fm.
Definition COMPLETION_PROMISE (fm : string) : option string :=
  field "completion_promise:" strip_quotes fm.

(** Line 144: [awk '/^---$/{i++; next} i>=2'].  Every [---] line is
    counted and skipped; the other lines are printed once two were seen. *)
Fixpoint awk_body (i : nat) (ls : list string) : list string :=
  match ls with
  | [] => []
  | l :: r =>
      if is_delim l then awk_body (S i) r
      else if (2 <=? i)%nat then l :: awk_body i r
      else awk_body i r
  end.

Definition PROMPT_TEXT (state : list string) : string :=
  cmdsubst (awk_body 0 state).

(** Line 163: [sed s/^iteration: .*/iteration: $NEXT_ITERATION/], on
    every line of the file. *)
Definition sed_iteration (next l : string) : string :=
  if String.prefix "iteration: " l then "iteration: " +:+ next else l.

Definition TEMP_FILE (pid : N) : string :=
  RALPH_STATE_FILE +:+ ".tmp." +:+ pretty pid.

(** Lines 162-164: the rewritten file goes to a temporary file next to the
    state file, which is then renamed over it. *)
Definition update (pid : N) (next : string) (state : list string)
    (fs : gmap string (list string)) : gmap string (list string) :=
  let fs1 := <[TEMP_FILE pid := map (sed_iteration next) state]> fs in
  match fs1 !! TEMP_FILE pid with
  | Some new => <[RALPH_STATE_FILE := new]> (delete (TEMP_FILE pid) fs1)
  | None => fs1
  end.

End StateStore.

(** ** Selecting matches: [grep -o] *)

Module Grep.
Import Text.

(** [grep -o]: every match found scanning the line from the left, a new
    search starting after the end of the previous match.  [at_ s] is the
    match that starts at the head of [s], with its length. *)
Fixpoint grep_o_go (at_ : string -> option (string * nat)) (skip : nat)
    (s : string) : list string :=
  match s with
  | "" => []
  | String _ r =>
      match skip with
      | S k => grep_o_go at_ k r
      | O =>
          match at_ s with
          | Some (m, n) => m :: grep_o_go at_ (n - 1) r
          | None => grep_o_go at_ 0 r
          end
      end
  end.

Definition grep_o (at_ : string -> option (string * nat)) (ls : list string)
  : list string :=
  concat (map (grep_o_go at_ 0) ls).

Definition not_dq (c : ascii) : bool := negb (Ascii.eqb c DQ).

(** A match of [open], characters other than the double quote, and a
    double quote, at the head of [s]; [open] is literal and ends with a
    double quote. *)
Definition quoted_at (open s : string) : option (string * nat) :=
  if String.prefix open s then
    let '(v, rest) := span not_dq (sdrop (String.length open) s) in
    match rest with
    | String _ _ =>
        Some (open +:+ v +:+ str DQ, String.length open + String.length v + 1)
    | "" => None
    end
  else None.

End Grep.

(** ** Hook input *)

Module HookInput.
Import Text Grep.

Definition key : string := q "transcript_path".

(** Line 61, the [grep -oE] pattern at the head of [s]: the quoted key,
    [[:space:]]*, a colon, [[:space:]]*, and a quoted run of characters other
    than the double quote. *)
Definition path_at (s : string) : option (string * nat) :=
  if String.prefix key s then
    let '(sp1, s1) := span Ascii.is_space (sdrop (String.length key) s) in
    match s1 with
    | String ":" s2 =>
        let '(sp2, s3) := span Ascii.is_space s2 in
        match quoted_at (str DQ) s3 with
        | Some (v, n) =>
            Some (key +:+ sp1 +:+ ":" +:+ sp2 +:+ v,
                  String.length key + String.length sp1 + 1
                  + String.length sp2 + n)
        | None => None
        end
    | _ => None
    end
  else None.

(** Line 61, the [sed] expression: on a line printed by that [grep] (the
    key, the separator and the quoted value, four double quotes in all) it
    keeps what stands between the last two double quotes. *)
Definition sed_path_value (l : string) : string :=
  match chop DQ l with
  | Some m =>
      match split_last (str DQ) m with
      | Some (_, v) => v
      | None => l
      end
  | None => l
  end.

(** [None]: grep selected nothing and, under [pipefail], the command
    substitution fails. *)
Definition TRANSCRIPT_PATH (HOOK_INPUT : string) : option string :=
  match grep_o path_at (echo HOOK_INPUT) with
  | [] => None
  | m => Some (cmdsubst (map sed_path_value m))
  end.

End HookInput.

(** ** Transcript reader *)

Module Transcript.
Import Text Grep.

Definition role_assistant : string := q "role" +:+ ":" +:+ q "assistant".

(** A line is a turn of the assistant when it holds the field [role] with
    the value [assistant], written as the host writes its records. *)
Definition is_assistant (l : string) : bool := contains role_assistant l.

(** Lines 82 and 92: [grep] for the literal [role_assistant]. *)
Definition grep_assistant (transcript : list string) : list string :=
  List.filter is_assistant transcript.

Definition has_assistant (transcript : list string) : bool :=
  match grep_assistant transcript with
  | [] => false
  | _ => true
  end.

(** Line 92. *)
Definition LAST_LINE (transcript : list string) : string :=
  cmdsubst (tail1 (grep_assistant transcript)).

Definition content_open : string := q "content" +:+ ":[".
Definition bs_n : string := String BS "n".
Definition bs_dq : string := String BS (str DQ).
Definition text_open : string := q "text" +:+ ":" +:+ str DQ.
(** The pattern of line 103: a text block that holds an escaped newline
    only. *)
Definition newline_block : string :=
  "{" +:+ q "type" +:+ ":" +:+ q "text" +:+ "," +:+ text_open +:+ bs_n +:+ str DQ.
(** The pattern of line 104: the end of a block and the start of a text
    block. *)
Definition block_sep : string :=
  "},{" +:+ q "type" +:+ ":" +:+ q "text" +:+ "," +:+ text_open.

(** Line 102: [sed -n] printing the group between [content_open] and a
    closing bracket.  Both [.*] of the pattern are greedy: the group ends at
    the last closing bracket of the line and starts after the last
    [content_open] before that bracket. *)
Definition sed_content (l : string) : option string :=
  match split_last "]" l with
  | Some (pre, _) =>
      match split_last content_open pre with
      | Some (_, b) => Some b
      | None => None
      end
  | None => None
  end.

(** Line 107: a leading double quote is removed, then a trailing one. *)
Definition strip_edge_quotes (l : string) : string :=
  let l1 := match l with
            | String c r => if Ascii.eqb c DQ then r else l
            | "" => ""
            end in
  match chop DQ l1 with
  | Some m => m
  | None => l1
  end.

(** Lines 102-107. *)
Definition primary_text (last_line : string) : string :=
  cmdsubst
    (map strip_edge_quotes
      (sed_g bs_n (str LF)
        (map (replace_all bs_dq (str DQ))
          (map (replace_all block_sep bs_n)
            (map (replace_all newline_block bs_n)
              (omap sed_content (echo last_line))))))).

(** Line 113: a trailing double quote is removed. *)
Definition chop_dq (l : string) : string :=
  match chop DQ l with
  | Some m => m
  | None => l
  end.

(** Lines 111-115.  When [grep -o] selects nothing the pipeline fails and
    the [echo] after [||] runs: the variable is empty either way. *)
Definition fallback_text (last_line : string) : string :=
  cmdsubst
    (map (replace_all bs_dq (str DQ))
      (sed_g bs_n (str LF)
        (map chop_dq
          (map (replace_all text_open "")
            (grep_o (quoted_at text_open) (echo last_line)))))).

(** Lines 102-116. *)
Definition LAST_OUTPUT (last_line : string) : string :=
  match primary_text last_line with
  | "" => fallback_text last_line
  | t => t
  end.

End Transcript.

(** ** Completion detector *)

Module Completion.
Import Text.

(** [tr '\n' ' '] on a stream of lines: one unterminated line. *)
Fixpoint flatten (ls : list string) : string :=
  match ls with
  | [] => ""
  | l :: r => l +:+ String " " (flatten r)
  end.

Definition not_lt (c : ascii) : bool := negb (Ascii.eqb c "<").

(** A match of [<promise>[^<]*</promise>] at the head of [s]: its group. *)
Definition promise_at (s : string) : option string :=
  if String.prefix "<promise>" s then
    let '(p, rest) := span not_lt (sdrop 9 s) in
    if String.prefix "</promise>" rest then Some p else None
  else None.

(** Line 129: [sed -n 's/.*<promise>\([^<]*\)<\/promise>.*/\1/p'].  The
    leading [.*] is greedy: of all the places where the rest of the pattern
    matches, the rightmost one is taken. *)
Fixpoint sed_promise (s : string) : option string :=
  match s with
  | "" => None
  | String _ r =>
      match sed_promise r with
      | Some p => Some p
      | None => promise_at s
      end
  end.

(** Line 129, whole pipeline: [tr -d '[:space:]'] removes blanks, tabs,
    newlines, vertical tabs, form feeds and carriage returns. *)
Definition PROMISE_TEXT (last_output : string) : string :=
  match sed_promise (flatten (echo last_output)) with
  | Some p => remove_chars Ascii.is_space p
  | None => ""
  end.

(** Line 132: [${COMPLETION_PROMISE// /}] removes the blanks only. *)
Definition strip_blanks (s : string) : string :=
  remove_chars (Ascii.eqb " ") s.

(** Lines 126 and 167: a promise is set. *)
Definition promise_set (promise : string) : bool :=
  negb (String.eqb promise "null") && negb (String.eqb promise "").

(** Lines 126-132: the decision of the completion check. *)
Definition matches (last_output promise : string) : bool :=
  promise_set promise &&
  let t := PROMISE_TEXT last_output in
  negb (String.eqb t "") && String.eqb t (strip_blanks promise).

End Completion.

(** ** Loop controller *)

Module Controller.
Import Text Arith StateStore HookInput Transcript Completion.

(** The [exit] the run ends at.  [PipelineFailed] and [UnboundVariable]
    are the shell's own exits, under [set -e -o pipefail] and [set -u]. *)
Inductive exit_point :=
| NoLoop                 (* line 20 *)
| CorruptIteration       (* line 39 *)
| CorruptMaxIterations   (* line 50 *)
| CapReached             (* line 57 *)
| NoTranscriptPath       (* line 68 *)
| TranscriptNotFound     (* line 77 *)
| NoAssistantMessage     (* line 88 *)
| NoLastLine             (* line 97 *)
| NoTextContent          (* line 122 *)
| CompletionDetected     (* line 135 *)
| NoPromptText           (* line 157 *)
| Block                  (* line 192 *)
| PipelineFailed         (* lines 25, 26, 28, 61 *)
| UnboundVariable.       (* line 163 *)

(** The arguments of the [printf] of line 189, before escaping. *)
Record Decision := { reason : string; systemMessage : string }.

(** What a run leaves behind.  [stdout] and [stderr] hold one entry for
    each [echo] or [printf] of the script. *)
Record result := {
  exit_at : exit_point;
  exit_code : Z;
  stdout : list string;
  stderr : list string;
  decision : option Decision;
  files : gmap string (list string)
}.

Definition exit0 (p : exit_point) (out err : list string)
    (fs : gmap string (list string)) : result :=
  {| exit_at := p; exit_code := 0; stdout := out; stderr := err;
     decision := None; files := fs |}.

(** A failing command under [set -e], or an unset variable under
    [set -u]: the shell exits with status 1 where it stands. *)
Definition shell_exit (p : exit_point) (fs : gmap string (list string))
  : result :=
  {| exit_at := p; exit_code := 1; stdout := []; stderr := [];
     decision := None; files := fs |}.

(** [rm $RALPH_STATE_FILE]. *)
Definition rm_state (fs : gmap string (list string))
  : gmap string (list string) :=
  delete RALPH_STATE_FILE fs.

Definition corrupt_field_msg (name value : string) : list string :=
  [ "⚠️  Ralph loop: State file corrupted";
    "   File: " +:+ RALPH_STATE_FILE;
    "   Problem: '" +:+ name +:+ "' field is not a valid number (got: '"
      +:+ value +:+ "')";
    "";
    "   This usually means the state file was manually edited or corrupted.";
    "   Ralph loop is stopping. Run /ralph-loop again to start fresh." ].

Definition cap_msg (max_iterations : string) : list string :=
  [ "🛑 Ralph loop: Max iterations (" +:+ max_iterations +:+ ") reached." ].

Definition no_path_msg : list string :=
  [ "⚠️  Ralph loop: No transcript path provided";
    "   This is unusual and may indicate a Claude Code internal issue.";
    "   Ralph loop is stopping." ].

Definition not_found_msg (path : string) : list string :=
  [ "⚠️  Ralph loop: Transcript file not found";
    "   Expected: " +:+ path;
    "   This is unusual and may indicate a Claude Code internal issue.";
    "   Ralph loop is stopping." ].

Definition no_assistant_msg (path : string) : list string :=
  [ "⚠️  Ralph loop: No assistant messages found in transcript";
    "   Transcript: " +:+ path;
    "   This is unusual and may indicate a transcript format issue";
    "   Ralph loop is stopping." ].

Definition no_last_line_msg : list string :=
  [ "⚠️  Ralph loop: Failed to extract last assistant message";
    "   Ralph loop is stopping." ].

Definition no_text_msg : list string :=
  [ "⚠️  Ralph loop: Assistant message contained no text content";
    "   Ralph loop is stopping." ].

Definition completion_msg (promise : string) : list string :=
  [ "✅ Ralph loop: Detected <promise>" +:+ promise +:+ "</promise>" ].

Definition no_prompt_msg : list string :=
  [ "⚠️  Ralph loop: State file corrupted or incomplete";
    "   File: " +:+ RALPH_STATE_FILE;
    "   Problem: No prompt text found";
    "";
    "   This usually means:";
    "     • State file was manually edited";
    "     • File was corrupted during writing";
    "";
    "   Ralph loop is stopping. Run /ralph-loop again to start fresh." ].

(** Lines 167-171. *)
Definition SYSTEM_MSG (next promise : string) : string :=
  if promise_set promise
  then "🔄 Ralph iteration " +:+ next +:+ " | To stop: output <promise>"
       +:+ promise
       +:+ "</promise> (ONLY when statement is TRUE - do not lie to exit!)"
  else "🔄 Ralph iteration " +:+ next
       +:+ " | No completion promise set - loop runs infinitely".

(** Lines 175-184: backslash, double quote, newline, carriage return
    and tab, in this order. *)
Definition escape_json (s : string) : string :=
  replace_all (str TAB) (String BS "t")
    (replace_all (str CR) (String BS "r")
      (replace_all (str LF) (String BS "n")
        (replace_all (str DQ) (String BS (str DQ))
          (replace_all (str BS) (String BS (str BS)) s)))).

(** Line 189. *)
Definition block_line (d : Decision) : string :=
  "{" +:+ q "decision" +:+ ":" +:+ q "block" +:+ "," +:+ q "reason" +:+ ":"
  +:+ q (escape_json (reason d)) +:+ "," +:+ q "systemMessage" +:+ ":"
  +:+ q (escape_json (systemMessage d)) +:+ "}".

(** Line 54. *)
Definition cap_reached (iteration max_iterations : string) : bool :=
  test_gt max_iterations "0" && test_ge iteration max_iterations.

(** Early exit: [x <- e or r ; k] continues with the value of [e], or
    ends the run with [r] when the command fails. *)
Notation "x <- e 'or' r ; k" :=
  (match e with Some x => k | None => r end)
  (at level 200, e at level 100, r at level 100, right associativity,
   only parsing).
Notation "'when' c 'exit' r ; k" :=
  (if c then r else k)
  (at level 10, c at level 100, r at level 100, k at level 200,
   only parsing).

(** Lines 93-137: the text of the selected line and the completion check.
    [Some r]: the run ends with [r]; [None]: not complete, the loop
    continues. *)
Definition examine (fs : gmap string (list string))
    (last_line promise : string) : option result :=
  when String.eqb last_line ""
    exit Some (exit0 NoLastLine [] no_last_line_msg (rm_state fs));
  let last_output := LAST_OUTPUT last_line in
  when String.eqb last_output ""
    exit Some (exit0 NoTextContent [] no_text_msg (rm_state fs));
  when matches last_output promise
    exit Some (exit0 CompletionDetected (completion_msg promise) []
                 (rm_state fs));
  None.

(** Lines 60-137: the transcript and the completion check. *)
Definition inspect (fs : gmap string (list string)) (HOOK_INPUT : string)
    (promise : string) : option result :=
  path <- TRANSCRIPT_PATH HOOK_INPUT or Some (shell_exit PipelineFailed fs);
  when String.eqb path ""
    exit Some (exit0 NoTranscriptPath [] no_path_msg (rm_state fs));
  transcript <- fs !! path
    or Some (exit0 TranscriptNotFound [] (not_found_msg path) (rm_state fs));
  when negb (has_assistant transcript)
    exit Some (exit0 NoAssistantMessage [] (no_assistant_msg path)
                 (rm_state fs));
  examine fs (LAST_LINE transcript) promise.

(** Lines 139-192: the continuation. *)
Definition continue (fs : gmap string (list string)) (pid : N)
    (state : list string) (iteration promise : string) : result :=
  let NEXT_ITERATION := succ_string iteration in
  let prompt := PROMPT_TEXT state in
  when String.eqb prompt ""
    exit exit0 NoPromptText [] no_prompt_msg (rm_state fs);
  next <- NEXT_ITERATION or shell_exit UnboundVariable fs;
  let d := {| reason := prompt; systemMessage := SYSTEM_MSG next promise |} in
  {| exit_at := Block; exit_code := 0; stdout := [block_line d];
     stderr := []; decision := Some d;
     files := update pid next state fs |}.

(** Lines 60-192: what follows the cap check. *)
Definition after_cap (fs : gmap string (list string)) (HOOK_INPUT : string)
    (pid : N) (state : list string) (iteration promise : string) : result :=
  match inspect fs HOOK_INPUT promise with
  | Some r => r
  | None => continue fs pid state iteration promise
  end.

(** The whole script: the file system, the bytes on standard input and
    the process id give the result of one stop event. *)
Definition run (fs : gmap string (list string)) (stdin : string) (pid : N)
  : result :=
  let HOOK_INPUT := strip_nl stdin in
  state <- fs !! RALPH_STATE_FILE or exit0 NoLoop [] [] fs;
  let fm := FRONTMATTER state in
  iteration <- ITERATION fm or shell_exit PipelineFailed fs;
  max_iterations <- MAX_ITERATIONS fm or shell_exit PipelineFailed fs;
  promise <- COMPLETION_PROMISE fm or shell_exit PipelineFailed fs;
  when negb (is_number iteration)
    exit exit0 CorruptIteration []
           (corrupt_field_msg "iteration" iteration) (rm_state fs);
  when negb (is_number max_iterations)
    exit exit0 CorruptMaxIterations []
           (corrupt_field_msg "max_iterations" max_iterations) (rm_state fs);
  when cap_reached iteration max_iterations
    exit exit0 CapReached (cap_msg max_iterations) [] (rm_state fs);
  after_cap fs HOOK_INPUT pid state iteration promise.

(** The exits of the checks of lines 60-137, and those of the continuation
    (lines 139-192). *)
Definition inspect_exit (p : exit_point) : bool :=
  match p with
  | PipelineFailed | NoTranscriptPath | TranscriptNotFound | NoAssistantMessage
  | NoLastLine | NoTextContent | CompletionDetected => true
  | _ => false
  end.

Definition continue_exit (p : exit_point) : bool :=
  match p with
  | NoPromptText | Block | UnboundVariable => true
  | _ => false
  end.

End Controller.

(** ** The words of the specification

    Definitions that follow the specification's sentences rather than the
    script, to compare the script with. *)

Module Spec.
Import Text.

(** The text before the first closing token. *)
Fixpoint until_close (s : string) : option string :=
  if String.prefix "</promise>" s then Some ""
  else match s with
       | "" => None
       | String c r => option_map (String c) (until_close r)
       end.

(** Section 4.3: the payload of the first occurrence of a marker pair, the
    content strictly between the opening token and the first closing token
    after it. *)
Fixpoint first_payload (s : string) : option string :=
  if String.prefix "<promise>" s then until_close (sdrop 9 s)
  else match s with
       | "" => None
       | String _ r => first_payload r
       end.

(** Section 4.3: all whitespace characters are removed. *)
Definition remove_whitespace (s : string) : string :=
  remove_chars Ascii.is_space s.

(** Section 4.3: true iff the extracted payload is not empty and payload and
    promise are equal once both are normalized. *)
Definition matches (payload : option string) (promise : string) : bool :=
  match payload with
  | Some p =>
      negb (String.eqb p "")
      && String.eqb (remove_whitespace p) (remove_whitespace promise)
  | None => false
  end.

(** Section 4.1: all content strictly after the second occurrence of the
    delimiter line. *)
Fixpoint after_delims (n : nat) (raw : list string) : list string :=
  match n, raw with
  | O, _ => raw
  | S _, [] => []
  | S k, l :: r =>
      if StateStore.is_delim l then after_delims k r else after_delims n r
  end.

Definition extractBody (raw : list string) : list string := after_delims 2 raw.

End Spec.

(** ** Transcript lines as structured records

    The specification reads each line of the transcript as one structured
    record with a [role] field (sections 3 and 4.2).  The reader below
    follows these words and not the script: it reads a line as a JSON text
    (RFC 8259), and a line is a record when the text is an object.  Numbers
    are kept as they are written; of a name given twice the last value
    stands. *)

Module Records.
Import Text.

#[warnings="-register-all"]
Inductive value : Type :=
| JNull
| JBool (b : bool)
| JNumber (literal : string)
| JString (s : string)
| JArray (items : list value)
| JObject (members : list (string * value)).

Definition is_ws (c : ascii) : bool :=
  Ascii.eqb c " " || Ascii.eqb c TAB || Ascii.eqb c LF || Ascii.eqb c CR.

Fixpoint skip_ws (s : string) : string :=
  match s with
  | String c r => if is_ws c then skip_ws r else s
  | "" => ""
  end.

Definition hex_value (c : ascii) : option N :=
  let n := N_of_ascii c in
  if ((48 <=? n) && (n <=? 57))%N then Some (n - 48)%N
  else if ((65 <=? n) && (n <=? 70))%N then Some (n - 55)%N
  else if ((97 <=? n) && (n <=? 102))%N then Some (n - 87)%N
  else None.

(** The bytes of a code point of the basic plane, in UTF-8. *)
Definition utf8 (n : N) : string :=
  if (n <? 128)%N then str (ascii_of_N n)
  else if (n <? 2048)%N
  then String (ascii_of_N (192 + n / 64)) (str (ascii_of_N (128 + n mod 64)))
  else String (ascii_of_N (224 + n / 4096))
         (String (ascii_of_N (128 + (n / 64) mod 64))
            (str (ascii_of_N (128 + n mod 64)))).

(** The character that stands after a backslash, [u] apart. *)
Definition escaped (c : ascii) : option ascii :=
  if Ascii.eqb c DQ then Some DQ
  else if Ascii.eqb c BS then Some BS
  else if Ascii.eqb c "/" then Some "/"%char
  else if Ascii.eqb c "b" then Some "008"%char
  else if Ascii.eqb c "f" then Some "012"%char
  else if Ascii.eqb c "n" then Some LF
  else if Ascii.eqb c "r" then Some CR
  else if Ascii.eqb c "t" then Some TAB
  else None.

Definition push (t : string) (x : option (string * string))
  : option (string * string) :=
  match x with
  | Some (u, rest) => Some (t +:+ u, rest)
  | None => None
  end.

(** A string, after its opening quote: its value and what follows the
    closing quote. *)
Fixpoint read_chars (s : string) : option (string * string) :=
  match s with
  | "" => None
  | String c r =>
      if Ascii.eqb c DQ then Some ("", r)
      else if Ascii.eqb c BS then
        match r with
        | String e r1 =>
            if Ascii.eqb e "u" then
              match r1 with
              | String h1 (String h2 (String h3 (String h4 r2))) =>
                  match hex_value h1, hex_value h2, hex_value h3, hex_value h4 with
                  | Some a, Some b, Some c', Some d =>
                      push (utf8 (((a * 16 + b) * 16 + c') * 16 + d)%N)
                        (read_chars r2)
                  | _, _, _, _ => None
                  end
              | _ => None
              end
            else match escaped e with
                 | Some x => push (str x) (read_chars r1)
                 | None => None
                 end
        | "" => None
        end
      else if (N_of_ascii c <? 32)%N then None
      else push (str c) (read_chars r)
  end.

Definition is_number_char (c : ascii) : bool :=
  let n := N_of_ascii c in
  ((48 <=? n) && (n <=? 57))%N || Ascii.eqb c "-" || Ascii.eqb c "+"
  || Ascii.eqb c "." || Ascii.eqb c "e" || Ascii.eqb c "E".

(** A value, the members of an object after its brace, the items of an
    array after its bracket; [fuel] bounds the depth and the number of
    members read. *)
Fixpoint read_value (fuel : nat) (s : string) : option (value * string) :=
  match fuel with
  | O => None
  | S k =>
      match skip_ws s with
      | "" => None
      | String c r as t =>
          if Ascii.eqb c "{" then
            match skip_ws r with
            | String d r' =>
                if Ascii.eqb d "}" then Some (JObject [], r')
                else match read_members k r with
                     | Some (ms, rest) => Some (JObject ms, rest)
                     | None => None
                     end
            | "" => None
            end
          else if Ascii.eqb c "[" then
            match skip_ws r with
            | String d r' =>
                if Ascii.eqb d "]" then Some (JArray [], r')
                else match read_items k r with
                     | Some (vs, rest) => Some (JArray vs, rest)
                     | None => None
                     end
            | "" => None
            end
          else if Ascii.eqb c DQ then
            match read_chars r with
            | Some (v, rest) => Some (JString v, rest)
            | None => None
            end
          else if String.prefix "true" t then Some (JBool true, sdrop 4 t)
          else if String.prefix "false" t then Some (JBool false, sdrop 5 t)
          else if String.prefix "null" t then Some (JNull, sdrop 4 t)
          else match span is_number_char t with
               | ("", _) => None
               | (n, rest) => Some (JNumber n, rest)
               end
      end
  end
with read_members (fuel : nat) (s : string)
  : option (list (string * value) * string) :=
  match fuel with
  | O => None
  | S k =>
      match skip_ws s with
      | String c r =>
          if Ascii.eqb c DQ then
            match read_chars r with
            | Some (name, r1) =>
                match skip_ws r1 with
                | String c1 r2 =>
                    if Ascii.eqb c1 ":" then
                      match read_value k r2 with
                      | Some (v, r3) =>
                          match skip_ws r3 with
                          | String c3 r4 =>
                              if Ascii.eqb c3 "," then
                                match read_members k r4 with
                                | Some (ms, rest) => Some ((name, v) :: ms, rest)
                                | None => None
                                end
                              else if Ascii.eqb c3 "}" then Some ([(name, v)], r4)
                              else None
                          | "" => None
                          end
                      | None => None
                      end
                    else None
                | "" => None
                end
            | None => None
            end
          else None
      | "" => None
      end
  end
with read_items (fuel : nat) (s : string) : option (list value * string) :=
  match fuel with
  | O => None
  | S k =>
      match read_value k s with
      | Some (v, r1) =>
          match skip_ws r1 with
          | String c r2 =>
              if Ascii.eqb c "," then
                match read_items k r2 with
                | Some (vs, rest) => Some (v :: vs, rest)
                | None => None
                end
              else if Ascii.eqb c "]" then Some ([v], r2)
              else None
          | "" => None
          end
      | None => None
      end
  end.

(** The record of a line: the members of the object the line holds, and
    nothing but blanks after it. *)
Definition record (line : string) : option (list (string * value)) :=
  match read_value (S (String.length line)) line with
  | Some (JObject ms, rest) =>
      if String.eqb (skip_ws rest) "" then Some ms else None
  | _ => None
  end.

Definition field (name : string) (ms : list (string * value)) : option value :=
  fold_left (fun found m => if String.eqb (fst m) name then Some (snd m) else found)
    ms None.

(** Section 4.2: the line is a record with [role == "assistant"]. *)
Definition role_is_assistant (line : string) : bool :=
  match record line with
  | Some ms =>
      match field "role" ms with
      | Some (JString r) => String.eqb r "assistant"
      | _ => false
      end
  | None => false
  end.

(** Section 4.2: no line has the role. *)
Definition no_assistant_turn (transcript : list string) : bool :=
  forallb (fun l => negb (role_is_assistant l)) transcript.

(** Section 4.2: the last line that has the role. *)
Definition last_assistant_entry (transcript : list string) : option string :=
  last (List.filter role_is_assistant transcript).

(** The text [lit] stands somewhere in the line. *)
Definition occurs (lit line : string) : Prop :=
  exists a b, line = a +:+ lit +:+ b.

(** The role of the assistant as the host writes it: the quoted name, a
    colon, the quoted value, nothing between them. *)
Definition assistant_literal : string := q "role" +:+ ":" +:+ q "assistant".

End Records.

(** ** Sample inputs *)

Module Sample.
Import Text StateStore Transcript.

(** A state file with the three header fields and a body. *)
Definition state_file (iteration max_iterations promise : string)
    (body : list string) : list string :=
  [ "---";
    "iteration: " +:+ iteration;
    "max_iterations: " +:+ max_iterations;
    "completion_promise: " +:+ promise;
    "---" ] ++ body.

(** A transcript line of the assistant with one text block. *)
Definition assistant_line (text : string) : string :=
  "{" +:+ role_assistant +:+ "," +:+ content_open +:+ "{" +:+ q "type" +:+ ":"
  +:+ q "text" +:+ "," +:+ text_open +:+ text +:+ str DQ +:+ "}]}".

Definition user_line (text : string) : string :=
  "{" +:+ q "role" +:+ ":" +:+ q "user" +:+ "," +:+ content_open +:+ "{"
  +:+ q "type" +:+ ":" +:+ q "text" +:+ "," +:+ text_open +:+ text +:+ str DQ
  +:+ "}]}".

Definition transcript_path : string := "/tmp/transcript.jsonl".

Definition hook_input : string :=
  "{" +:+ q "session_id" +:+ ":" +:+ q "abc" +:+ "," +:+ q "transcript_path"
  +:+ ":" +:+ q transcript_path +:+ "}".

(** A working directory with a state file and a transcript. *)
Definition workdir (state transcript : list string)
  : gmap string (list string) :=
  <[RALPH_STATE_FILE := state]> {[ transcript_path := transcript ]}.

Definition two_pow_63 : string := "9223372036854775808".

End Sample.

(** ** Notions the properties are stated with *)

Module Notions.
Import Text Arith StateStore Grep HookInput Transcript Completion Controller.

(** The exits that end the loop with status 0. *)
Definition terminal_exit (p : exit_point) : bool :=
  match p with
  | CorruptIteration | CorruptMaxIterations | CapReached | NoTranscriptPath
  | TranscriptNotFound | NoAssistantMessage | NoLastLine | NoTextContent
  | CompletionDetected | NoPromptText => true
  | _ => false
  end.

(** The four shapes of a result: no loop, an exit of the shell, an exit
    that ends the loop, and the block decision. *)
Inductive run_shape (fs : gmap string (list string)) (pid : N)
  : result -> Prop :=
| shape_no_loop :
    fs !! RALPH_STATE_FILE = None ->
    run_shape fs pid (exit0 NoLoop [] [] fs)
| shape_shell p state :
    fs !! RALPH_STATE_FILE = Some state ->
    p = PipelineFailed \/ p = UnboundVariable ->
    run_shape fs pid (shell_exit p fs)
| shape_terminal p out err state :
    fs !! RALPH_STATE_FILE = Some state ->
    terminal_exit p = true ->
    (out = [] \/ (exists v, out = cap_msg v)
     \/ (exists v, out = completion_msg v)) ->
    run_shape fs pid (exit0 p out err (rm_state fs))
| shape_block state next d :
    fs !! RALPH_STATE_FILE = Some state ->
    run_shape fs pid
      {| exit_at := Block; exit_code := 0; stdout := [block_line d];
         stderr := []; decision := Some d;
         files := update pid next state fs |}.

(** [n] stop events in a row are blocked, the first one finding [state] in
    the state file and each later one the file its predecessor left; the
    payload, the process id and the other files are any. *)
Inductive blocks : nat -> list string -> Prop :=
| blocks_O state : blocks 0 state
| blocks_S n (fs : gmap string (list string)) stdin pid state state' :
    fs !! RALPH_STATE_FILE = Some state ->
    exit_at (run fs stdin pid) = Block ->
    files (run fs stdin pid) !! RALPH_STATE_FILE = Some state' ->
    blocks n state' ->
    blocks (S n) state.

(** Each character replaced by a string. *)
Fixpoint expand (f : ascii -> string) (s : string) : string :=
  match s with
  | "" => ""
  | String c r => f c +:+ expand f r
  end.

(** Lines 178-182 as one table. *)
Definition esc_char (c : ascii) : string :=
  if Ascii.eqb c BS then String BS (str BS)
  else if Ascii.eqb c DQ then String BS (str DQ)
  else if Ascii.eqb c LF then String BS "n"
  else if Ascii.eqb c CR then String BS "r"
  else if Ascii.eqb c TAB then String BS "t"
  else str c.

(** How a reader of the decision reads the escapes the script writes: the
    character after a backslash stands for itself, but for [n], [r] and [t],
    which stand for newline, carriage return and tab. *)
Definition unesc_char (c : ascii) : ascii :=
  if Ascii.eqb c "n" then LF
  else if Ascii.eqb c "r" then CR
  else if Ascii.eqb c "t" then TAB
  else c.

Fixpoint unescape_json (s : string) : string :=
  match s with
  | "" => ""
  | String c r =>
      if Ascii.eqb c BS then
        match r with
        | String x r' => String (unesc_char x) (unescape_json r')
        | "" => str c
        end
      else String c (unescape_json r)
  end.

(** A newline, a carriage return or a tab, unescaped. *)
Definition is_raw_control (c : ascii) : bool :=
  Ascii.eqb c LF || Ascii.eqb c CR || Ascii.eqb c TAB.

Definition starts_nonzero (s : string) : bool :=
  match s with
  | String c _ => negb (Ascii.eqb c "0")
  | "" => false
  end.

(** The three keys of the header. *)
Definition header_keys : list string :=
  ["iteration:"; "max_iterations:"; "completion_promise:"].

(** A line that one of the three [grep] of lines 25-28 selects. *)
Definition field_line (l : string) : bool :=
  String.prefix "iteration:" l || String.prefix "max_iterations:" l
  || String.prefix "completion_promise:" l.

(** The lines of the body that line 24 reads as header lines: those between
    a third and a fourth delimiter line, and so on. *)
Definition stray_header (body : list string) : list string :=
  sed_frontmatter false body.

(** An argument that [echo] reads as options and does not print: a dash,
    then one or more of the letters [n], [e] and [E]. *)
Definition echo_option (s : string) : bool :=
  match s with
  | String "-" (String c r as flags) => all_chars is_echo_flag flags
  | _ => false
  end.

(** [tr '\n' ' '] on the bytes of a text. *)
Fixpoint nl_to_blank (s : string) : string :=
  match s with
  | "" => ""
  | String c r => String (if Ascii.eqb c LF then " "%char else c) (nl_to_blank r)
  end.

(** A character of a text that the extraction of lines 102-107 leaves
    alone: no double quote, backslash, brace or newline. *)
Definition plain (c : ascii) : bool :=
  negb (Ascii.eqb c DQ || Ascii.eqb c BS || Ascii.eqb c LF
        || Ascii.eqb c "{" || Ascii.eqb c "}").

(** The content of a transcript line with one text block, as line 102
    prints it. *)
Definition text_block (text : string) : string :=
  "{" +:+ q "type" +:+ ":" +:+ q "text" +:+ "," +:+ text_open +:+ text
  +:+ str DQ +:+ "}".

(** The header lines of the documented layout. *)
Definition header_lines (it mx cp : string) : list string :=
  [ "iteration: " +:+ it; "max_iterations: " +:+ mx;
    "completion_promise: " +:+ cp ].

(** The field of the payload that names the transcript, as line 61 looks
    for it: the quoted key, a colon with blanks around it, the quoted
    value. *)
Definition path_field (sp1 sp2 path : string) : string :=
  HookInput.key +:+ sp1 +:+ ":" +:+ sp2 +:+ q path.

End Notions.

(** * Proofs *)

Import Text Arith StateStore Grep HookInput Transcript Completion Controller.

(** ** Strings and lines *)

Lemma sapp_cons c r x : String c r +:+ x = String c (r +:+ x).
Proof. reflexivity. Qed.

Lemma sapp_nil_l x : "" +:+ x = x.
Proof. reflexivity. Qed.

Lemma prefix_app a s : String.prefix a s = true <-> exists t, s = a +:+ t.
Proof.
  revert s. induction a as [|c a IH]; intros s.
  - split; [intros _; exists s; reflexivity | intros _; destruct s; reflexivity].
  - destruct s as [|d s]; simpl.
    + split; [discriminate | intros [t Ht]; discriminate].
    + destruct (ascii_dec c d) as [->|Hne].
      * rewrite IH. split; intros [t Ht]; exists t.
        -- rewrite sapp_cons, Ht. reflexivity.
        -- rewrite sapp_cons in Ht. congruence.
      * split; [discriminate | intros [t Ht]; rewrite sapp_cons in Ht; congruence].
Qed.

Lemma sdrop_app a t : sdrop (String.length a) (a +:+ t) = t.
Proof. induction a as [|c a IH]; [destruct t; reflexivity | exact IH]. Qed.

Lemma strip_nl_line l : has_char LF l = false -> strip_nl (l +:+ str LF) = l.
Proof.
  induction l as [|c r IH]; intros H; [reflexivity|].
  cbn [has_char] in H. apply orb_false_iff in H as [Hc Hr].
  rewrite sapp_cons. cbn [strip_nl]. rewrite (IH Hr).
  destruct r as [|d r'].
  - rewrite Ascii.eqb_sym, Hc. reflexivity.
  - reflexivity.
Qed.

Lemma cmdsubst_line l : has_char LF l = false -> cmdsubst [l] = l.
Proof. intros H. unfold cmdsubst. cbn [unlines]. apply strip_nl_line, H. Qed.

(** *** The last selected line *)

Lemma last_filter (p : string -> bool) (ls : list string) (x : string) :
  last (List.filter p ls) = Some x ->
  exists pre post, ls = pre ++ x :: post /\ p x = true
                   /\ List.filter p post = [].
Proof.
  induction ls as [|a r IH]; [discriminate|].
  cbn [List.filter]. intros H.
  destruct (List.filter p r) as [|y f] eqn:Hf.
  - destruct (p a) eqn:Ha; [|discriminate].
    injection H as <-. exists [], r. auto.
  - assert (Hl : last (y :: f) = Some x).
    { destruct (p a); [exact H | exact H]. }
    destruct (IH Hl) as (pre & post & -> & Hx & Hpost).
    exists (a :: pre), post. auto.
Qed.

Lemma filter_nil_forall (p : string -> bool) (ls : list string) :
  List.filter p ls = [] <-> forall l, In l ls -> p l = false.
Proof.
  induction ls as [|a r IH]; cbn [List.filter].
  - split; [intros _ l [] | reflexivity].
  - destruct (p a) eqn:Ha.
    + split; [discriminate | intros H; specialize (H a (or_introl eq_refl)); congruence].
    + rewrite IH. split.
      * intros H l [<-|Hl]; auto.
      * intros H l Hl. apply H. right. exact Hl.
Qed.

(** ** The marker pair *)

Lemma span_app f s a b : span f s = (a, b) -> s = a +:+ b.
Proof.
  revert a b. induction s as [|c r IH]; intros a b; cbn [span].
  - intros [= <- <-]. reflexivity.
  - destruct (f c).
    + destruct (span f r) as [a' b'] eqn:E. intros [= <- <-].
      rewrite sapp_cons, <- (IH a' b' eq_refl). reflexivity.
    + intros [= <- <-]. reflexivity.
Qed.

Lemma span_all f s a b : span f s = (a, b) -> all_chars f a = true.
Proof.
  revert a b. induction s as [|c r IH]; intros a b; cbn [span].
  - intros [= <- <-]. reflexivity.
  - destruct (f c) eqn:Hc.
    + destruct (span f r) as [a' b'] eqn:E. intros [= <- <-].
      cbn [all_chars]. rewrite Hc, (IH a' b' eq_refl). reflexivity.
    + intros [= <- <-]. reflexivity.
Qed.

Lemma span_stop f a c b :
  all_chars f a = true -> f c = false -> span f (a +:+ String c b) = (a, String c b).
Proof.
  intros Ha Hc. induction a as [|d a IH].
  - cbn [span String.append]. rewrite sapp_nil_l. cbn [span]. rewrite Hc. reflexivity.
  - cbn [all_chars] in Ha. apply andb_true_iff in Ha as [Hd Ha].
    rewrite sapp_cons. cbn [span]. rewrite Hd, (IH Ha). reflexivity.
Qed.

Lemma has_lt_not_lt p : has_char "<" p = false <-> all_chars not_lt p = true.
Proof.
  induction p as [|c r IH]; cbn [has_char all_chars]; [tauto|].
  unfold not_lt at 1. rewrite (Ascii.eqb_sym c), orb_false_iff, andb_true_iff, negb_true_iff, IH.
  tauto.
Qed.

Lemma promise_at_spec s p :
  promise_at s = Some p <->
  exists post, s = "<promise>" +:+ p +:+ "</promise>" +:+ post
               /\ has_char "<" p = false.
Proof.
  unfold promise_at. split.
  - destruct (String.prefix "<promise>" s) eqn:Hp; [|discriminate].
    apply prefix_app in Hp as [t ->].
    change 9 with (String.length "<promise>"). rewrite sdrop_app.
    destruct (span not_lt t) as [a rest] eqn:Hs.
    destruct (String.prefix "</promise>" rest) eqn:Hc; [|discriminate].
    intros [= <-]. apply prefix_app in Hc as [post ->].
    exists post. split.
    + rewrite (span_app _ _ _ _ Hs). reflexivity.
    + apply has_lt_not_lt, (span_all _ _ _ _ Hs).
  - intros (post & -> & Hlt).
    assert (Hp : String.prefix "<promise>" ("<promise>" +:+ p +:+ "</promise>" +:+ post) = true)
      by (apply prefix_app; eauto).
    rewrite Hp. change 9 with (String.length "<promise>"). rewrite sdrop_app.
    change ("</promise>" +:+ post) with (String "<" ("/promise>" +:+ post)).
    rewrite span_stop; [|apply has_lt_not_lt, Hlt|reflexivity].
    change (String "<" ("/promise>" +:+ post)) with ("</promise>" +:+ post).
    assert (Hc : String.prefix "</promise>" ("</promise>" +:+ post) = true)
      by (apply prefix_app; eauto).
    rewrite Hc. reflexivity.
Qed.

Lemma sed_promise_none s :
  sed_promise s = None ->
  forall pre t, s = pre +:+ t -> promise_at t = None.
Proof.
  induction s as [|c r IH]; intros H pre t E.
  - destruct pre; [|discriminate]. rewrite sapp_nil_l in E. subst t. reflexivity.
  - cbn [sed_promise] in H.
    destruct (sed_promise r) eqn:Hr; [discriminate|].
    destruct pre as [|d pre].
    + rewrite sapp_nil_l in E. subst t. exact H.
    + rewrite sapp_cons in E. injection E as _ E. exact (IH eq_refl pre t E).
Qed.

Lemma sed_promise_some s p :
  sed_promise s = Some p ->
  exists pre t, s = pre +:+ t /\ promise_at t = Some p /\
    forall pre' t', s = pre' +:+ t' -> promise_at t' <> None ->
                    String.length pre' <= String.length pre.
Proof.
  revert p. induction s as [|c r IH]; intros p H; [discriminate|].
  cbn [sed_promise] in H.
  destruct (sed_promise r) as [p0|] eqn:Hr.
  - injection H as <-. destruct (IH p0 eq_refl) as (pre & t & -> & Ht & Hmax).
    exists (String c pre), t. split; [reflexivity|]. split; [exact Ht|].
    intros pre' t' E Hm. destruct pre' as [|d pre']; [cbn; lia|].
    rewrite !sapp_cons in E. injection E as _ E.
    specialize (Hmax pre' t' E Hm). cbn. lia.
  - exists "", (String c r). split; [reflexivity|]. split; [exact H|].
    intros pre' t' E Hm. destruct pre' as [|d pre']; [cbn; lia|].
    rewrite sapp_cons in E. injection E as _ E.
    exfalso. apply Hm. exact (sed_promise_none r Hr pre' t' E).
Qed.

(** ** Shell arithmetic *)

Section ArithFacts.
Local Open Scope Z_scope.

Lemma wrap64_small z : - 2 ^ 63 <= z < 2 ^ 63 -> wrap64 z = z.
Proof. intros H. unfold wrap64. rewrite Z.mod_small; lia. Qed.

Lemma digit_range c d : digit c = Some d -> 0 <= d <= 9.
Proof.
  unfold digit.
  destruct ((48 <=? Z.of_N (N_of_ascii c)) && (Z.of_N (N_of_ascii c) <=? 57)) eqn:E;
    [|discriminate].
  intros [= <-]. apply andb_true_iff in E as [H1 H2].
  apply Z.leb_le in H1, H2. lia.
Qed.

Lemma is_digit_some c : is_digit c = true -> exists d, digit c = Some d.
Proof. unfold is_digit. destruct (digit c) as [d|]; [eauto | discriminate]. Qed.

Lemma decimal_go_mono s acc :
  all_chars is_digit s = true -> 0 <= acc -> acc <= decimal_go acc s.
Proof.
  revert acc. induction s as [|c r IH]; intros acc Hs Hacc; cbn [decimal_go]; [lia|].
  cbn [all_chars] in Hs. apply andb_true_iff in Hs as [Hc Hr].
  destruct (is_digit_some c Hc) as [d Hd]. rewrite Hd.
  pose proof (digit_range c d Hd).
  specialize (IH (acc * 10 + d) Hr). lia.
Qed.

Lemma strlong_go_decimal s acc :
  all_chars is_digit s = true -> 0 <= acc -> decimal_go acc s < 2 ^ 63 ->
  strlong_go 10 acc s = Some (decimal_go acc s).
Proof.
  revert acc. induction s as [|c r IH]; intros acc Hs Hacc Hlt;
    cbn [decimal_go strlong_go]; [reflexivity|].
  cbn [all_chars] in Hs. apply andb_true_iff in Hs as [Hc Hr].
  destruct (is_digit_some c Hc) as [d Hd].
  cbn [decimal_go] in Hlt. rewrite Hd in *.
  pose proof (digit_range c d Hd).
  pose proof (decimal_go_mono r (acc * 10 + d) Hr ltac:(lia)).
  replace (d <? 10) with true by (symmetry; apply Z.ltb_lt; lia).
  rewrite wrap64_small by lia.
  apply IH; [exact Hr | lia | exact Hlt].
Qed.

Lemma is_number_digits s : is_number s = true -> all_chars is_digit s = true.
Proof. destruct s; [discriminate | exact id]. Qed.

(** Bash reads a numeral without leading zero, below 2^63, as its decimal
    value. *)
Lemma strlong_canonical s :
  canonical s = true -> decimal s < 2 ^ 63 -> strlong s = Some (decimal s).
Proof.
  unfold canonical. intros H Hlt. apply andb_true_iff in H as [Hn Hz].
  pose proof (is_number_digits s Hn) as Hd.
  destruct s as [|c r]; [discriminate|].
  destruct (Ascii.eqb c "0") eqn:Hc.
  - apply Ascii.eqb_eq in Hc as ->. destruct r; [reflexivity | discriminate].
  - assert (E : strlong (String c r) = strlong_go 10 0 (String c r)).
    { unfold strlong. destruct c as [[] [] [] [] [] [] [] []]; try reflexivity.
      discriminate. }
    rewrite E. apply strlong_go_decimal; [exact Hd | lia | exact Hlt].
Qed.

Lemma decimal_go_zero s acc :
  all_chars is_digit s = true -> 0 <= acc -> decimal_go acc s = 0 ->
  acc = 0 /\ all_chars (Ascii.eqb "0") s = true.
Proof.
  revert acc. induction s as [|c r IH]; intros acc Hs Hacc H0; cbn [decimal_go] in H0.
  - split; [exact H0 | reflexivity].
  - cbn [all_chars] in Hs. apply andb_true_iff in Hs as [Hc Hr].
    destruct (is_digit_some c Hc) as [d Hd]. rewrite Hd in H0.
    pose proof (digit_range c d Hd).
    destruct (IH (acc * 10 + d) Hr ltac:(lia) H0) as [Ha Hz].
    assert (d = 0) by lia. subst d.
    split; [lia|]. cbn [all_chars]. rewrite Hz, andb_true_r.
    destruct c as [[] [] [] [] [] [] [] []]; vm_compute in Hd; try discriminate;
      reflexivity.
Qed.

Lemma strlong_go_zeros base s :
  0 < base -> all_chars (Ascii.eqb "0") s = true -> strlong_go base 0 s = Some 0.
Proof.
  intros Hb. induction s as [|c r IH]; intros Hs; cbn [strlong_go]; [reflexivity|].
  cbn [all_chars] in Hs. apply andb_true_iff in Hs as [Hc Hr].
  apply Ascii.eqb_eq in Hc as <-. change (digit "0") with (Some 0). cbv beta iota.
  replace (0 <? base) with true by (symmetry; apply Z.ltb_lt; lia).
  rewrite Z.mul_0_l, Z.add_0_l. change (wrap64 0) with 0. exact (IH Hr).
Qed.

(** A field that denotes zero is read as zero, however it is written. *)
Lemma strlong_zero s :
  is_number s = true -> decimal s = 0 -> strlong s = Some 0.
Proof.
  intros Hn H0. pose proof (is_number_digits s Hn) as Hd.
  destruct (decimal_go_zero s 0 Hd ltac:(lia) H0) as [_ Hz].
  destruct s as [|c r]; [discriminate|].
  cbn [all_chars] in Hz. apply andb_true_iff in Hz as [Hc Hr].
  apply Ascii.eqb_eq in Hc as <-.
  destruct r as [|d r']; [reflexivity|].
  change (strlong (String "0" (String d r'))) with (strlong_go 8 0 (String d r')).
  apply strlong_go_zeros; [lia | exact Hr].
Qed.

Lemma test_gt_zero s : is_number s = true -> decimal s = 0 -> test_gt s "0" = false.
Proof.
  intros Hn H0. unfold test_gt. rewrite (strlong_zero s Hn H0). reflexivity.
Qed.

End ArithFacts.

(** ** The controller *)

(** Case analysis on every test of the goal. *)
Ltac case_ifs :=
  repeat match goal with
         | |- context [if ?c then _ else _] => destruct c
         end.

Section Run.
Variable fs : gmap string (list string).
Variables (stdin : string) (pid : N).
Variables (state : list string) (it mx cp : string).
Hypothesis Hstate : fs !! RALPH_STATE_FILE = Some state.
Hypothesis Hit : ITERATION (FRONTMATTER state) = Some it.
Hypothesis Hmx : MAX_ITERATIONS (FRONTMATTER state) = Some mx.
Hypothesis Hcp : COMPLETION_PROMISE (FRONTMATTER state) = Some cp.

Lemma run_parsed :
  run fs stdin pid =
  if negb (is_number it)
  then exit0 CorruptIteration [] (corrupt_field_msg "iteration" it) (rm_state fs)
  else if negb (is_number mx)
  then exit0 CorruptMaxIterations [] (corrupt_field_msg "max_iterations" mx)
         (rm_state fs)
  else if cap_reached it mx
  then exit0 CapReached (cap_msg mx) [] (rm_state fs)
  else after_cap fs (strip_nl stdin) pid state it cp.
Proof. unfold run. rewrite Hstate, Hit, Hmx, Hcp. reflexivity. Qed.

Lemma run_valid :
  is_number it = true -> is_number mx = true ->
  run fs stdin pid =
  if cap_reached it mx
  then exit0 CapReached (cap_msg mx) [] (rm_state fs)
  else after_cap fs (strip_nl stdin) pid state it cp.
Proof. intros H1 H2. rewrite run_parsed, H1, H2. reflexivity. Qed.

End Run.

Lemma examine_exit fs last_line promise r :
  examine fs last_line promise = Some r -> inspect_exit (exit_at r) = true.
Proof.
  unfold examine.
  case_ifs; intros [= <-] || discriminate; reflexivity.
Qed.

Lemma inspect_exit_at fs input promise r :
  inspect fs input promise = Some r -> inspect_exit (exit_at r) = true.
Proof.
  unfold inspect.
  destruct (TRANSCRIPT_PATH input) as [path|]; [|intros [= <-]; reflexivity].
  destruct (String.eqb path ""); [intros [= <-]; reflexivity|].
  destruct (fs !! path) as [transcript|]; [|intros [= <-]; reflexivity].
  destruct (negb (has_assistant transcript)); [intros [= <-]; reflexivity|].
  apply examine_exit.
Qed.

Lemma continue_exit_at fs pid state it cp :
  continue_exit (exit_at (continue fs pid state it cp)) = true.
Proof.
  unfold continue. destruct (String.eqb (PROMPT_TEXT state) ""); [reflexivity|].
  destruct (succ_string it); reflexivity.
Qed.

Lemma after_cap_not_cap fs input pid state it cp :
  exit_at (after_cap fs input pid state it cp) <> CapReached.
Proof.
  unfold after_cap. destruct (inspect fs input cp) as [r|] eqn:E.
  - apply inspect_exit_at in E. destruct (exit_at r); discriminate.
  - pose proof (continue_exit_at fs pid state it cp) as H.
    destruct (exit_at (continue fs pid state it cp)); discriminate.
Qed.

(** ** The cap *)

Lemma cap_reached_decimal it mx :
  canonical it = true -> canonical mx = true ->
  (decimal it < 2 ^ 63)%Z -> (decimal mx < 2 ^ 63)%Z ->
  cap_reached it mx = ((0 <? decimal mx)%Z && (decimal mx <=? decimal it)%Z).
Proof.
  intros Hi Hm Li Lm. unfold cap_reached, test_gt, test_ge.
  rewrite (strlong_canonical it Hi Li), (strlong_canonical mx Hm Lm).
  reflexivity.
Qed.




(** ** The order of the checks and the promise sentinel *)

Lemma eqb_empty_false s : s <> "" -> String.eqb s "" = false.
Proof. intros H. apply String.eqb_neq, H. Qed.



Lemma matches_sentinel text cp : cp = "null" \/ cp = "" -> matches text cp = false.
Proof. intros [-> | ->]; reflexivity. Qed.

Lemma examine_sentinel fs last_line cp r :
  cp = "null" \/ cp = "" ->
  examine fs last_line cp = Some r -> exit_at r <> CompletionDetected.
Proof.
  intros Hs. unfold examine. rewrite (matches_sentinel _ cp Hs).
  case_ifs; intros [= <-] || discriminate; discriminate.
Qed.

Lemma inspect_sentinel fs input cp r :
  cp = "null" \/ cp = "" ->
  inspect fs input cp = Some r ->
  exit_at r <> CompletionDetected /\ decision r = None.
Proof.
  intros Hs. unfold inspect.
  destruct (TRANSCRIPT_PATH input) as [path|]; [|intros [= <-]; split; [discriminate|reflexivity]].
  destruct (String.eqb path ""); [intros [= <-]; split; [discriminate|reflexivity]|].
  destruct (fs !! path) as [transcript|]; [|intros [= <-]; split; [discriminate|reflexivity]].
  destruct (negb (has_assistant transcript)); [intros [= <-]; split; [discriminate|reflexivity]|].
  intros H. split; [exact (examine_sentinel _ _ _ _ Hs H)|].
  revert H. unfold examine.
  case_ifs; intros [= <-] || discriminate; reflexivity.
Qed.

(** C10.  When the promise, quotes stripped, is [null] or empty, the
    completion check accepts no text, the run is the run of a record whose
    promise is [null], it never ends at the completion exit, and a block
    decision carries the message that no completion promise is set and the
    loop runs infinitely. *)
Theorem C10_promise_sentinel
    (fs : gmap string (list string)) (stdin : string) (pid : N)
    (state : list string) (it mx cp : string) :
  fs !! RALPH_STATE_FILE = Some state ->
  ITERATION (FRONTMATTER state) = Some it ->
  MAX_ITERATIONS (FRONTMATTER state) = Some mx ->
  COMPLETION_PROMISE (FRONTMATTER state) = Some cp ->
  cp = "null" \/ cp = "" ->
  (forall text, matches text cp = false)
  /\ run fs stdin pid
     = (if negb (is_number it)
        then exit0 CorruptIteration [] (corrupt_field_msg "iteration" it)
               (rm_state fs)
        else if negb (is_number mx)
        then exit0 CorruptMaxIterations []
               (corrupt_field_msg "max_iterations" mx) (rm_state fs)
        else if cap_reached it mx
        then exit0 CapReached (cap_msg mx) [] (rm_state fs)
        else after_cap fs (strip_nl stdin) pid state it "null")
  /\ exit_at (run fs stdin pid) <> CompletionDetected
  /\ (forall d, decision (run fs stdin pid) = Some d ->
      exit_at (run fs stdin pid) = Block
      /\ exists next, succ_string it = Some next
                      /\ systemMessage d
                         = "🔄 Ralph iteration " +:+ next
                           +:+ " | No completion promise set - loop runs infinitely").
Proof.
  intros Hstate Hit Hmx Hcp Hs.
  split; [intros text; apply matches_sentinel, Hs|].
  rewrite (run_parsed fs stdin pid state it mx cp Hstate Hit Hmx Hcp).
  split; [destruct Hs as [-> | ->]; reflexivity|].
  destruct (negb (is_number it)); [split; [discriminate | intros d; discriminate]|].
  destruct (negb (is_number mx)); [split; [discriminate | intros d; discriminate]|].
  destruct (cap_reached it mx); [split; [discriminate | intros d; discriminate]|].
  unfold after_cap. destruct (inspect fs (strip_nl stdin) cp) as [r|] eqn:E.
  - destruct (inspect_sentinel _ _ _ _ Hs E) as [H1 H2].
    split; [exact H1 | intros d Hd; congruence].
  - unfold continue. destruct (String.eqb (PROMPT_TEXT state) "");
      [split; [discriminate | intros d; discriminate]|].
    destruct (succ_string it) as [next|];
      [|split; [discriminate | intros d; discriminate]].
    split; [discriminate|]. cbn [decision exit_at]. intros d [= <-].
    split; [reflexivity|]. exists next. split; [reflexivity|].
    cbn [systemMessage]. unfold SYSTEM_MSG.
    destruct Hs as [-> | ->]; reflexivity.
Qed.

(** ** The transcript and the completion detector *)

Lemma has_assistant_false transcript :
  has_assistant transcript = false <->
  forall l, In l transcript -> is_assistant l = false.
Proof.
  unfold has_assistant, grep_assistant. rewrite <- filter_nil_forall.
  destruct (List.filter is_assistant transcript); split; congruence.
Qed.

Lemma last_assistant transcript pre l post :
  transcript = pre ++ l :: post -> is_assistant l = true ->
  (forall l', In l' post -> is_assistant l' = false) ->
  last (grep_assistant transcript) = Some l.
Proof.
  intros -> Hl Hpost. unfold grep_assistant.
  rewrite List.filter_app. cbn [List.filter]. rewrite Hl.
  apply filter_nil_forall in Hpost. rewrite Hpost.
  apply last_snoc.
Qed.

Lemma examine_not_no_assistant fs last_line promise r :
  examine fs last_line promise = Some r -> exit_at r <> NoAssistantMessage.
Proof.
  unfold examine.
  case_ifs; intros [= <-] || discriminate; discriminate.
Qed.

(** The selection of lines 82-98 in terms of the test of the script. *)
Lemma inspect_last_selected
    (fs : gmap string (list string)) (HOOK_INPUT promise path : string)
    (transcript : list string) :
  Forall no_lf transcript ->
  TRANSCRIPT_PATH HOOK_INPUT = Some path -> path <> "" ->
  fs !! path = Some transcript ->
  ((forall l, In l transcript -> is_assistant l = false) <->
   inspect fs HOOK_INPUT promise =
     Some (exit0 NoAssistantMessage [] (no_assistant_msg path) (rm_state fs)))
  /\ ((exists l, In l transcript /\ is_assistant l = true) ->
      exists pre l post,
        transcript = pre ++ l :: post /\ is_assistant l = true
        /\ (forall l', In l' post -> is_assistant l' = false))
  /\ (forall pre l post,
        transcript = pre ++ l :: post -> is_assistant l = true ->
        (forall l', In l' post -> is_assistant l' = false) ->
        LAST_LINE transcript = l
        /\ inspect fs HOOK_INPUT promise = examine fs l promise).
Proof.
  intros Hlf Hp Hne Hf.
  assert (Hi : inspect fs HOOK_INPUT promise =
               if negb (has_assistant transcript)
               then Some (exit0 NoAssistantMessage [] (no_assistant_msg path)
                            (rm_state fs))
               else examine fs (LAST_LINE transcript) promise).
  { unfold inspect. rewrite Hp, (eqb_empty_false _ Hne), Hf. reflexivity. }
  split; [|split].
  - rewrite <- has_assistant_false, Hi.
    destruct (has_assistant transcript) eqn:Ha; cbn [negb].
    + split; [discriminate|]. intros H.
      apply examine_not_no_assistant in H. contradiction H. reflexivity.
    + split; reflexivity.
  - intros (l0 & Hin & Hl0).
    destruct (last (grep_assistant transcript)) as [l|] eqn:E.
    + destruct (last_filter _ _ _ E) as (pre & post & -> & Hl & Hpost).
      exists pre, l, post. rewrite filter_nil_forall in Hpost. auto.
    + apply last_None in E. unfold grep_assistant in E.
      rewrite filter_nil_forall in E. rewrite (E l0 Hin) in Hl0. discriminate.
  - intros pre l post E Hl Hpost.
    pose proof (last_assistant transcript pre l post E Hl Hpost) as Hlast.
    assert (HL : LAST_LINE transcript = l).
    { unfold LAST_LINE, tail1. rewrite Hlast. apply cmdsubst_line.
      rewrite Forall_forall in Hlf. apply Hlf. rewrite E.
      apply list_elem_of_In, in_or_app. right. left. reflexivity. }
    split; [exact HL|]. rewrite Hi.
    assert (Ha : has_assistant transcript = true).
    { unfold has_assistant. destruct (grep_assistant transcript); [discriminate | reflexivity]. }
    rewrite Ha, HL. reflexivity.
Qed.

Lemma contains_prefix pat s : String.prefix pat s = true -> contains pat s = true.
Proof. intros H. destruct s; cbn [contains]; rewrite H; reflexivity. Qed.

(** [grep] for a literal selects the lines in which the literal stands. *)
Lemma contains_occurs pat s :
  contains pat s = true <-> Records.occurs pat s.
Proof.
  unfold Records.occurs. split.
  - induction s as [|c r IH]; cbn [contains]; intros H.
    + rewrite orb_false_r in H. apply prefix_app in H as [t E].
      exists "", t. exact E.
    + apply orb_true_iff in H as [H | H].
      * apply prefix_app in H as [t E]. exists "", t. exact E.
      * destruct (IH H) as (a & b & ->). exists (String c a), b. reflexivity.
  - intros (a & b & ->). induction a as [|c a IH].
    + apply contains_prefix, prefix_app. eauto.
    + rewrite sapp_cons. cbn [contains]. rewrite IH. apply orb_true_r.
Qed.

Lemma assistant_occurs l :
  is_assistant l = true <-> Records.occurs Records.assistant_literal l.
Proof. apply contains_occurs. Qed.

Lemma assistant_absent l :
  is_assistant l = false <-> ~ Records.occurs Records.assistant_literal l.
Proof.
  rewrite <- assistant_occurs. destruct (is_assistant l); split; congruence.
Qed.



Lemma split_nl_no_lf s : Forall no_lf (split_nl s).
Proof.
  induction s as [|c r IH]; cbn [split_nl].
  - repeat constructor.
  - destruct (Ascii.eqb c LF) eqn:Hc.
    + constructor; [reflexivity | exact IH].
    + destruct (split_nl r) as [|l ls].
      * constructor; [|constructor].
        unfold no_lf, str. cbn [has_char]. rewrite Ascii.eqb_sym, Hc. reflexivity.
      * inversion IH as [|? ? Hl Hls]; subst. constructor; [|exact Hls].
        unfold no_lf in *. cbn [has_char]. rewrite Ascii.eqb_sym, Hc, Hl.
        reflexivity.
Qed.

Lemma echo_no_lf s : Forall no_lf (echo s).
Proof.
  unfold echo. destruct s as [|c s']; [apply split_nl_no_lf|].
  destruct (Ascii.eqb c "-") eqn:Hc.
  - apply Ascii.eqb_eq in Hc as ->. destruct s' as [|d r]; [apply split_nl_no_lf|].
    destruct (all_chars is_echo_flag (String d r)); [|apply split_nl_no_lf].
    destruct (has_char "n" (String d r)); repeat constructor.
  - destruct c as [[] [] [] [] [] [] [] []]; try apply split_nl_no_lf; discriminate.
Qed.

Lemma has_char_app c a b : has_char c (a +:+ b) = has_char c a || has_char c b.
Proof.
  induction a as [|d a IH]; [reflexivity|].
  rewrite sapp_cons. cbn [has_char]. rewrite IH, orb_assoc. reflexivity.
Qed.

Lemma flatten_no_lf ls :
  Forall no_lf ls -> has_char LF (flatten ls) = false.
Proof.
  induction 1 as [|l ls Hl _ IH]; [reflexivity|].
  unfold no_lf in Hl.
  cbn [flatten]. rewrite has_char_app, Hl. cbn [has_char orb]. exact IH.
Qed.

(** C6 as stated fails.  Of two marker pairs the second is extracted, where
    the specification takes the first: a promise equal to the first payload
    is not detected and the run blocks the stop, one equal to the second is
    detected and the run ends the loop. *)
Lemma C6_counterexample :
  let text := "<promise>first</promise> and <promise>second</promise>" in
  let fs promise :=
    Sample.workdir (Sample.state_file "2" "5" promise ["Fix the bug"])
      [Sample.assistant_line text] in
  Spec.first_payload (flatten (echo text)) = Some "first"
  /\ sed_promise (flatten (echo text)) = Some "second"
  /\ PROMISE_TEXT text = "second"
  /\ matches text "first" = false
  /\ matches text "second" = true
  /\ exit_at (run (fs "first") Sample.hook_input 4242) = Block
  /\ exit_at (run (fs "second") Sample.hook_input 4242) = CompletionDetected.
Proof. vm_compute. repeat split. Qed.

(** ** What the script keeps of the claims it breaks *)

(** The prompt is the content after the second delimiter line, less the
    delimiter lines it holds. *)
Lemma after_delims_0 ls : Spec.after_delims 0 ls = ls.
Proof. destruct ls; reflexivity. Qed.

Lemma awk_body_after_delims i ls :
  awk_body i ls = List.filter not_delim (Spec.after_delims (2 - i) ls).
Proof.
  revert i. induction ls as [|l r IH]; intros i.
  - destruct (2 - i); reflexivity.
  - cbn [awk_body].
    assert (Hn : not_delim l = negb (is_delim l)) by reflexivity.
    destruct (is_delim l) eqn:Hd; cbn [negb] in Hn.
    + rewrite IH. destruct (2 - i) as [|k] eqn:E.
      * replace (2 - S i) with 0 by lia. rewrite !after_delims_0.
        cbn [List.filter]. rewrite Hn. reflexivity.
      * replace (2 - S i) with k by lia. cbn [Spec.after_delims]. rewrite Hd.
        reflexivity.
    + destruct (2 <=? i) eqn:Hi.
      * apply Nat.leb_le in Hi. rewrite IH.
        replace (2 - i) with 0 by lia. rewrite !after_delims_0.
        cbn [List.filter]. rewrite Hn. reflexivity.
      * apply Nat.leb_gt in Hi. rewrite IH.
        destruct (2 - i) as [|k] eqn:E; [lia|].
        cbn [Spec.after_delims]. rewrite Hd. reflexivity.
Qed.

Lemma filter_all (p : string -> bool) ls :
  Forall (fun l => p l = true) ls -> List.filter p ls = ls.
Proof.
  induction 1 as [|l r Hl _ IH]; [reflexivity|].
  cbn [List.filter]. rewrite Hl, IH. reflexivity.
Qed.

Lemma prompt_without_delimiter state :
  Forall (fun l => is_delim l = false) (Spec.extractBody state) ->
  PROMPT_TEXT state = cmdsubst (Spec.extractBody state).
Proof.
  intros H. unfold PROMPT_TEXT. rewrite awk_body_after_delims.
  change (2 - 0) with 2. fold (Spec.extractBody state).
  rewrite filter_all; [reflexivity|].
  eapply Forall_impl; [exact H|]. intros l Hl. unfold not_delim. rewrite Hl. reflexivity.
Qed.

(** *** Reading a variable back through [echo] *)

Lemma strip_nl_app a b :
  no_lf a ->
  strip_nl (a +:+ String LF b)
  = match strip_nl b with
    | "" => a
    | b' => a +:+ String LF b'
    end.
Proof.
  unfold no_lf. induction a as [|c r IH]; intros H.
  - rewrite sapp_nil_l. cbn [strip_nl]. destruct (strip_nl b); reflexivity.
  - cbn [has_char] in H. apply orb_false_iff in H as [Hc Hr].
    rewrite sapp_cons. cbn [strip_nl]. rewrite (IH Hr).
    destruct (strip_nl b) as [|d b'].
    + destruct r; [|reflexivity]. rewrite Ascii.eqb_sym, Hc. reflexivity.
    + rewrite sapp_cons. destruct r; reflexivity.
Qed.

Lemma split_nl_line l : no_lf l -> split_nl l = [l].
Proof.
  unfold no_lf. induction l as [|c r IH]; intros H; [reflexivity|].
  cbn [has_char] in H. apply orb_false_iff in H as [Hc Hr].
  cbn [split_nl]. rewrite Ascii.eqb_sym, Hc, (IH Hr). reflexivity.
Qed.

Lemma split_nl_app l x :
  no_lf l -> split_nl (l +:+ String LF x) = l :: split_nl x.
Proof.
  unfold no_lf. induction l as [|c r IH]; intros H.
  - rewrite sapp_nil_l. cbn [split_nl]. rewrite Ascii.eqb_refl. reflexivity.
  - cbn [has_char] in H. apply orb_false_iff in H as [Hc Hr].
    rewrite sapp_cons. cbn [split_nl]. rewrite Ascii.eqb_sym, Hc, (IH Hr).
    reflexivity.
Qed.

Lemma echo_flags_no_lf s : all_chars is_echo_flag s = true -> has_char LF s = false.
Proof.
  induction s as [|e t IH]; intros Hf; [reflexivity|].
  cbn [all_chars] in Hf. apply andb_true_iff in Hf as [He Ht].
  cbn [has_char]. rewrite (IH Ht), orb_false_r.
  destruct (Ascii.eqb LF e) eqn:El; [|reflexivity].
  apply Ascii.eqb_eq in El as <-. discriminate.
Qed.

Section GrepVariable.
Variable key : string.
Hypothesis key_empty : String.prefix key "" = false.
Hypothesis key_dash : forall s, String.prefix key (String "-" s) = false.

Lemma filter_split_cmdsubst ls :
  Forall no_lf ls ->
  List.filter (String.prefix key) (split_nl (cmdsubst ls))
  = List.filter (String.prefix key) ls.
Proof.
  unfold cmdsubst. induction 1 as [|l r Hl _ IH].
  - cbn [unlines strip_nl split_nl List.filter]. rewrite key_empty. reflexivity.
  - cbn [unlines]. rewrite (strip_nl_app _ _ Hl).
    destruct (strip_nl (unlines r)) as [|d b'] eqn:E.
    + rewrite (split_nl_line _ Hl). cbn [List.filter].
      cbn [split_nl List.filter] in IH. rewrite key_empty in IH. rewrite <- IH.
      destruct (String.prefix key l); reflexivity.
    + rewrite (split_nl_app _ _ Hl). cbn [List.filter]. rewrite IH.
      reflexivity.
Qed.

Lemma filter_echo s :
  List.filter (String.prefix key) (echo s)
  = List.filter (String.prefix key) (split_nl s).
Proof.
  unfold echo. destruct s as [|c s']; [reflexivity|].
  destruct (Ascii.eqb c "-") eqn:Hc.
  - apply Ascii.eqb_eq in Hc as ->. destruct s' as [|d r]; [reflexivity|].
    destruct (all_chars is_echo_flag (String d r)) eqn:Hf; [|reflexivity].
    assert (Hn : no_lf (String "-" (String d r))).
    { unfold no_lf.
      change (Ascii.eqb LF "-" || has_char LF (String d r) = false).
      rewrite (echo_flags_no_lf _ Hf). reflexivity. }
    rewrite (split_nl_line _ Hn). cbn [List.filter]. rewrite key_dash.
    destruct (has_char "n" (String d r)); cbn [List.filter];
      rewrite ?key_empty; reflexivity.
  - destruct c as [[] [] [] [] [] [] [] []]; try reflexivity; discriminate.
Qed.

(** What grep selects from a variable is what it selects from the lines
    the variable was read from. *)
Lemma grep_variable ls :
  Forall no_lf ls ->
  grep_prefix key (echo (cmdsubst ls)) = grep_prefix key ls.
Proof.
  intros H. unfold grep_prefix.
  rewrite filter_echo, (filter_split_cmdsubst _ H). reflexivity.
Qed.

End GrepVariable.

(** *** The frame of the update *)

Lemma sapp_eq_self s t : s +:+ t = s -> t = "".
Proof.
  induction s as [|c r IH]; [exact id|].
  rewrite sapp_cons. intros [= H]. exact (IH H).
Qed.

Lemma temp_file_fresh pid : TEMP_FILE pid <> RALPH_STATE_FILE.
Proof.
  unfold TEMP_FILE. intros H. apply sapp_eq_self in H. discriminate.
Qed.

(** After the update the state file holds the rewritten lines, the
    temporary file is gone and every other file is as before. *)
Lemma update_files pid next state (fs : gmap string (list string)) :
  update pid next state fs !! RALPH_STATE_FILE
  = Some (map (sed_iteration next) state)
  /\ update pid next state fs !! TEMP_FILE pid = None
  /\ forall p, p <> RALPH_STATE_FILE -> p <> TEMP_FILE pid ->
               update pid next state fs !! p = fs !! p.
Proof.
  unfold update. rewrite lookup_insert_eq.
  pose proof (temp_file_fresh pid) as Hne.
  split; [apply lookup_insert_eq|]. split.
  - rewrite lookup_insert_ne by congruence. apply lookup_delete_eq.
  - intros p H1 H2.
    rewrite lookup_insert_ne, lookup_delete_ne, lookup_insert_ne by congruence.
    reflexivity.
Qed.

Lemma iteration_line_not_delim l :
  String.prefix "iteration: " l = true -> is_delim l = false.
Proof. intros H. apply prefix_app in H as [t ->]. reflexivity. Qed.

Lemma sed_iteration_delim next l : is_delim (sed_iteration next l) = is_delim l.
Proof.
  unfold sed_iteration. destruct (String.prefix "iteration: " l) eqn:H; [|reflexivity].
  rewrite (iteration_line_not_delim l H). reflexivity.
Qed.

Lemma awk_body_update next i ls :
  awk_body i (map (sed_iteration next) ls)
  = map (sed_iteration next) (awk_body i ls).
Proof.
  revert i. induction ls as [|l r IH]; intros i; [reflexivity|].
  cbn [map awk_body]. rewrite sed_iteration_delim.
  destruct (is_delim l); [apply IH|].
  destruct (2 <=? i); [cbn [map]; rewrite IH; reflexivity | apply IH].
Qed.

Lemma sed_frontmatter_update next b ls :
  sed_frontmatter b (map (sed_iteration next) ls)
  = map (sed_iteration next) (sed_frontmatter b ls).
Proof.
  revert b. induction ls as [|l r IH]; intros b; [reflexivity|].
  cbn [map sed_frontmatter]. rewrite sed_iteration_delim.
  destruct (is_delim l); [apply IH|].
  destruct b; [cbn [map]; rewrite IH; reflexivity | apply IH].
Qed.

Lemma sed_frontmatter_no_lf b ls :
  Forall no_lf ls -> Forall no_lf (sed_frontmatter b ls).
Proof.
  intros H. revert b. induction H as [|l r Hl _ IH]; intros b; [constructor|].
  cbn [sed_frontmatter]. destruct (is_delim l); [apply IH|].
  destruct b; [constructor; [exact Hl | apply IH] | apply IH].
Qed.

Lemma sed_iteration_no_lf next l :
  no_lf next -> no_lf l -> no_lf (sed_iteration next l).
Proof.
  unfold sed_iteration, no_lf. intros Hn Hl.
  destruct (String.prefix "iteration: " l); [|exact Hl].
  rewrite has_char_app, Hn. reflexivity.
Qed.

Lemma map_id_on (f : string -> string) ls :
  Forall (fun l => f l = l) ls -> map f ls = ls.
Proof.
  induction 1 as [|l r Hl _ IH]; [reflexivity|].
  cbn [map]. rewrite Hl, IH. reflexivity.
Qed.

Section Frame.
Variables (next : string) (state : list string).
Hypothesis next_no_lf : no_lf next.
Hypothesis state_no_lf : Forall no_lf state.

Lemma filter_update key ls :
  (forall s, String.prefix key (String "i" s) = false) ->
  List.filter (String.prefix key) (map (sed_iteration next) ls)
  = List.filter (String.prefix key) ls.
Proof.
  intros Ki. induction ls as [|l r IH]; [reflexivity|].
  cbn [map List.filter]. rewrite IH. unfold sed_iteration.
  destruct (String.prefix "iteration: " l) eqn:Hp; [|reflexivity].
  apply prefix_app in Hp as [t ->].
  change ("iteration: " +:+ next) with (String "i" ("teration: " +:+ next)).
  change ("iteration: " +:+ t) with (String "i" ("teration: " +:+ t)).
  rewrite !Ki. reflexivity.
Qed.

(** A header field other than [iteration] reads the same after the update. *)
Lemma field_update key post :
  String.prefix key "" = false ->
  (forall s, String.prefix key (String "-" s) = false) ->
  (forall s, String.prefix key (String "i" s) = false) ->
  field key post (FRONTMATTER (map (sed_iteration next) state))
  = field key post (FRONTMATTER state).
Proof.
  intros K0 Kd Ki. unfold field, FRONTMATTER.
  rewrite sed_frontmatter_update.
  pose proof (sed_frontmatter_no_lf false state state_no_lf) as Hfm.
  assert (Hfm' : Forall no_lf (map (sed_iteration next)
                                 (sed_frontmatter false state))).
  { apply Forall_map. eapply Forall_impl; [exact Hfm|].
    intros l Hl. apply sed_iteration_no_lf; assumption. }
  rewrite (grep_variable key K0 Kd _ Hfm), (grep_variable key K0 Kd _ Hfm').
  unfold grep_prefix. rewrite (filter_update key _ Ki). reflexivity.
Qed.

(** The frame of the update: the two other header fields are read as
    before, and so is the prompt, provided no line of the prompt starts with
    the header key of the iteration. *)
Theorem update_frame pid (fs : gmap string (list string)) :
  exists state',
    update pid next state fs !! RALPH_STATE_FILE = Some state'
    /\ MAX_ITERATIONS (FRONTMATTER state') = MAX_ITERATIONS (FRONTMATTER state)
    /\ COMPLETION_PROMISE (FRONTMATTER state')
       = COMPLETION_PROMISE (FRONTMATTER state)
    /\ (Forall (fun l => String.prefix "iteration: " l = false)
          (awk_body 0 state) ->
        PROMPT_TEXT state' = PROMPT_TEXT state).
Proof.
  exists (map (sed_iteration next) state).
  split; [apply update_files|].
  split; [apply field_update; reflexivity|].
  split; [apply field_update; reflexivity|].
  intros H. unfold PROMPT_TEXT. rewrite awk_body_update.
  rewrite map_id_on; [reflexivity|].
  eapply Forall_impl; [exact H|]. intros l Hl. unfold sed_iteration.
  rewrite Hl. reflexivity.
Qed.

End Frame.

(** *** The exits of the shell *)

(** A header without one of the three fields: the pipeline that reads the
    field fails and the shell exits with status 1, the state file left as
    it is and nothing printed. *)
Lemma run_missing_field (fs : gmap string (list string)) stdin pid state :
  fs !! RALPH_STATE_FILE = Some state ->
  ITERATION (FRONTMATTER state) = None
  \/ MAX_ITERATIONS (FRONTMATTER state) = None
  \/ COMPLETION_PROMISE (FRONTMATTER state) = None ->
  run fs stdin pid = shell_exit PipelineFailed fs.
Proof.
  intros Hs H. unfold run. rewrite Hs.
  destruct H as [H | [H | H]]; rewrite H;
    repeat match goal with
           | |- context [match ?o with Some _ => _ | None => _ end] =>
               destruct o
           end; reflexivity.
Qed.

(** A payload in which grep finds no transcript path: past the cap check
    the shell exits with status 1 in the same way. *)
Lemma after_cap_missing_path (fs : gmap string (list string))
    input pid state it cp :
  TRANSCRIPT_PATH input = None ->
  after_cap fs input pid state it cp = shell_exit PipelineFailed fs.
Proof. intros H. unfold after_cap, inspect. rewrite H. reflexivity. Qed.

(** *** The transcript that cannot be read *)

(** The payload has a transcript path: an empty path, a missing file, a
    transcript without assistant turn and a turn without text each end the
    run with status 0, the state file deleted and a diagnostic of their
    own. *)
Lemma inspect_unavailable (fs : gmap string (list string))
    (input promise : string) :
  (TRANSCRIPT_PATH input = Some "" ->
   inspect fs input promise
   = Some (exit0 NoTranscriptPath [] no_path_msg (rm_state fs)))
  /\ (forall path,
        TRANSCRIPT_PATH input = Some path -> path <> "" -> fs !! path = None ->
        inspect fs input promise
        = Some (exit0 TranscriptNotFound [] (not_found_msg path) (rm_state fs)))
  /\ (forall path transcript,
        TRANSCRIPT_PATH input = Some path -> path <> "" ->
        fs !! path = Some transcript -> has_assistant transcript = false ->
        inspect fs input promise
        = Some (exit0 NoAssistantMessage [] (no_assistant_msg path)
                  (rm_state fs)))
  /\ (forall path transcript,
        TRANSCRIPT_PATH input = Some path -> path <> "" ->
        fs !! path = Some transcript -> has_assistant transcript = true ->
        LAST_LINE transcript <> "" ->
        LAST_OUTPUT (LAST_LINE transcript) = "" ->
        inspect fs input promise
        = Some (exit0 NoTextContent [] no_text_msg (rm_state fs))).
Proof.
  unfold inspect. repeat split.
  - intros ->. reflexivity.
  - intros path -> Hne ->. rewrite (eqb_empty_false _ Hne). reflexivity.
  - intros path transcript -> Hne -> ->. rewrite (eqb_empty_false _ Hne).
    reflexivity.
  - intros path transcript -> Hne -> -> Hl Ho. rewrite (eqb_empty_false _ Hne).
    unfold examine. rewrite (eqb_empty_false _ Hl), Ho. reflexivity.
Qed.

(** *** The comparison of payload and promise *)

(** What the completion check decides: the last payload, all its whitespace
    removed, is not empty and equals the promise with its blanks removed. *)
Lemma matches_true text promise :
  matches text promise = true <->
  promise_set promise = true
  /\ exists p, sed_promise (flatten (echo text)) = Some p
               /\ remove_chars Ascii.is_space p <> ""
               /\ remove_chars Ascii.is_space p = strip_blanks promise.
Proof.
  unfold matches, PROMISE_TEXT.
  destruct (promise_set promise); cbn [andb];
    [|split; [discriminate | intros [? _]; discriminate]].
  destruct (sed_promise (flatten (echo text))) as [p|].
  - rewrite andb_true_iff, negb_true_iff, String.eqb_neq, String.eqb_eq.
    split.
    + intros [H1 H2]. split; [reflexivity|]. exists p. auto.
    + intros (_ & p' & [= <-] & H1 & H2). auto.
  - split; [discriminate | intros (_ & p' & ? & _); discriminate].
Qed.

(** On a promise whose only whitespace is blanks, removing the blanks
    removes all whitespace. *)
Lemma strip_blanks_all promise :
  all_chars (fun c => negb (Ascii.is_space c) || Ascii.eqb " " c) promise = true ->
  strip_blanks promise = Spec.remove_whitespace promise.
Proof.
  unfold strip_blanks, Spec.remove_whitespace.
  induction promise as [|c r IH]; intros H; [reflexivity|].
  cbn [all_chars] in H. apply andb_true_iff in H as [Hc Hr].
  cbn [remove_chars]. rewrite (IH Hr).
  destruct (Ascii.eqb " " c) eqn:E.
  - apply Ascii.eqb_eq in E as <-. reflexivity.
  - rewrite orb_false_r in Hc. apply negb_true_iff in Hc. rewrite Hc. reflexivity.
Qed.

(** ** The script at particular inputs *)

(** C2 at its failing input.  A state file without [iteration] line: grep
    selects nothing, the pipeline of line 25 fails and the shell exits with
    status 1; nothing is printed and the state file stays. *)
Lemma C2_missing_iteration_exits_1 :
  let state := [ "---"; "max_iterations: 5"; "completion_promise: null"; "---";
                 "Fix the bug" ] in
  let fs := Sample.workdir state [Sample.assistant_line "working"] in
  ITERATION (FRONTMATTER state) = None
  /\ run fs Sample.hook_input 4242 =
       {| exit_at := PipelineFailed; exit_code := 1; stdout := [];
          stderr := []; decision := None; files := fs |}
  /\ files (run fs Sample.hook_input 4242) !! RALPH_STATE_FILE = Some state.
Proof. vm_compute. repeat split. Qed.

(** C3 at its failing input.  The promise holds a tab: with all whitespace
    removed it equals the payload, so the specification reports a match; the
    script removes only blanks from the promise and reports none, and the
    run blocks the stop instead of ending the loop. *)
Lemma C3_tab_in_promise :
  let promise := "a" +:+ str TAB +:+ "b" in
  let text := "<promise>a b</promise>" in
  let state := Sample.state_file "2" "5" (q promise) ["Fix the bug"] in
  let fs := Sample.workdir state [Sample.assistant_line text] in
  sed_promise (flatten (echo text)) = Some "a b"
  /\ Spec.remove_whitespace "a b" = Spec.remove_whitespace promise
  /\ Spec.matches (sed_promise (flatten (echo text))) promise = true
  /\ matches text promise = false
  /\ COMPLETION_PROMISE (FRONTMATTER state) = Some promise
  /\ exit_at (run fs Sample.hook_input 4242) = Block.
Proof. vm_compute. repeat split. Qed.

(** C4 at its failing input.  A body line that starts with [iteration: ] is
    rewritten with the header line: the prompt read back after the update is
    not the prompt read before. *)
Lemma C4_body_line_rewritten :
  let body := ["Report progress as"; "iteration: <n> done"] in
  let state := Sample.state_file "2" "5" "null" body in
  let fs := Sample.workdir state [Sample.assistant_line "working"] in
  let r := run fs Sample.hook_input 4242 in
  exit_at r = Block
  /\ PROMPT_TEXT state
     = "Report progress as" +:+ str LF +:+ "iteration: <n> done"
  /\ files r !! RALPH_STATE_FILE
     = Some (Sample.state_file "3" "5" "null"
               ["Report progress as"; "iteration: 3"])
  /\ (PROMPT_TEXT <$> files r !! RALPH_STATE_FILE)
     = Some ("Report progress as" +:+ str LF +:+ "iteration: 3").
Proof. vm_compute. repeat split. Qed.

(** C5 at its failing input.  A payload without [transcript_path]: grep
    selects nothing, the pipeline of line 61 fails and the shell exits with
    status 1; nothing is printed and the state file stays. *)
Lemma C5_no_transcript_path_exits_1 :
  let state := Sample.state_file "2" "5" "null" ["Fix the bug"] in
  let fs := Sample.workdir state [Sample.assistant_line "working"] in
  let stdin := "{" +:+ q "session_id" +:+ ":" +:+ q "abc" +:+ "}" in
  TRANSCRIPT_PATH stdin = None
  /\ run fs stdin 4242 =
       {| exit_at := PipelineFailed; exit_code := 1; stdout := [];
          stderr := []; decision := None; files := fs |}
  /\ files (run fs stdin 4242) !! RALPH_STATE_FILE = Some state.
Proof. vm_compute. repeat split. Qed.

(** C7 at its failing input.  A body that holds a [---] line: the line is
    part of the content after the second delimiter, and it is missing from
    the reason of the block decision. *)
Lemma C7_delimiter_line_dropped :
  let body := ["Part one"; "---"; "Part two"] in
  let state := Sample.state_file "2" "5" "null" body in
  let fs := Sample.workdir state [Sample.assistant_line "working"] in
  let r := run fs Sample.hook_input 4242 in
  Spec.extractBody state = body
  /\ exit_at r = Block
  /\ (reason <$> decision r) = Some ("Part one" +:+ str LF +:+ "Part two").
Proof. vm_compute. repeat split. Qed.



(** The hypotheses of C10 hold for a state file whose promise is [null]. *)
Lemma C10_promise_sentinel_witness :
  matches "<promise>null</promise>" "null" = false.
Proof.
  refine (proj1 (C10_promise_sentinel
                   (Sample.workdir
                      (Sample.state_file "2" "5" "null" ["Fix the bug"])
                      [Sample.assistant_line "<promise>null</promise>"])
                   Sample.hook_input 4242
                   (Sample.state_file "2" "5" "null" ["Fix the bug"])
                   "2" "5" "null" _ _ _ _ _) "<promise>null</promise>");
    try (vm_compute; reflexivity).
  left. reflexivity.
Defined.

(** * Further properties of the script *)

Import Notions.

(** ** Strings, patterns and lines *)

Lemma sapp_assoc x y z : (x +:+ y) +:+ z = x +:+ (y +:+ z).
Proof.
  induction x as [|c r IH]; [reflexivity|].
  rewrite !sapp_cons, IH. reflexivity.
Qed.

Lemma sapp_nil_r x : x +:+ "" = x.
Proof.
  induction x as [|c r IH]; [reflexivity|]. rewrite sapp_cons, IH. reflexivity.
Qed.

Lemma sapp_len a b :
  String.length (a +:+ b) = String.length a + String.length b.
Proof.
  induction a as [|c a IH]; [reflexivity|].
  rewrite sapp_cons. cbn [String.length]. rewrite IH. reflexivity.
Qed.

Lemma all_chars_app p a b :
  all_chars p (a +:+ b) = all_chars p a && all_chars p b.
Proof.
  induction a as [|c a IH]; [reflexivity|].
  rewrite sapp_cons. cbn [all_chars]. rewrite IH, andb_assoc. reflexivity.
Qed.

Lemma no_lf_app a b : no_lf a -> no_lf b -> no_lf (a +:+ b).
Proof.
  unfold no_lf. intros Ha Hb. rewrite has_char_app, Ha, Hb. reflexivity.
Qed.

Lemma prefix_empty s : String.prefix "" s = true.
Proof. destruct s; reflexivity. Qed.

Lemma prefix_cons a p b s :
  String.prefix (String a p) (String b s)
  = Ascii.eqb a b && String.prefix p s.
Proof.
  cbn [String.prefix]. destruct (ascii_dec a b) as [->|Hne].
  - rewrite Ascii.eqb_refl. reflexivity.
  - apply Ascii.eqb_neq in Hne. rewrite Hne. reflexivity.
Qed.

Lemma prefix_weaken pat a b :
  String.prefix pat a = true -> String.prefix pat (a +:+ b) = true.
Proof.
  intros H. apply prefix_app in H as [t ->]. rewrite sapp_assoc.
  apply prefix_app. eauto.
Qed.

Lemma prefix_absent pat x :
  contains pat x = false -> String.prefix pat x = false.
Proof.
  destruct x; cbn [contains]; intros H; apply orb_false_iff in H as [H _];
    exact H.
Qed.

(** A character that the pattern does not hold stops a match: the pattern
    begins [x] followed by that character only when it begins [x]. *)
Lemma prefix_stop pat x s0 w :
  has_char s0 pat = false -> String.prefix pat "" = false ->
  String.prefix pat (x +:+ String s0 w) = String.prefix pat x.
Proof.
  revert pat. induction x as [|c x IH]; intros pat Hb He.
  - destruct pat as [|a pat]; [discriminate|].
    cbn [has_char] in Hb. apply orb_false_iff in Hb as [Hb _].
    rewrite sapp_nil_l, prefix_cons, (Ascii.eqb_sym a s0), Hb. reflexivity.
  - destruct pat as [|a pat]; [discriminate|].
    cbn [has_char] in Hb. apply orb_false_iff in Hb as [_ Hb].
    rewrite sapp_cons, !prefix_cons.
    destruct pat as [|b pat]; [rewrite !prefix_empty; reflexivity|].
    rewrite (IH (String b pat) Hb eq_refl). reflexivity.
Qed.

(** A pattern and a text, each cut at its first [c]: the pattern begins the
    text when the parts before [c] are equal and the part after begins the
    other one. *)
Lemma prefix_stop_at c u v t w :
  has_char c u = false -> has_char c t = false ->
  String.prefix (u +:+ String c v) (t +:+ String c w)
  = String.eqb u t && String.prefix v w.
Proof.
  revert t. induction u as [|a u IH]; intros t Hu Ht.
  - rewrite sapp_nil_l. destruct t as [|b t].
    + rewrite sapp_nil_l, prefix_cons, Ascii.eqb_refl. reflexivity.
    + cbn [has_char] in Ht. apply orb_false_iff in Ht as [Hb _].
      rewrite sapp_cons, prefix_cons, Hb. reflexivity.
  - cbn [has_char] in Hu. apply orb_false_iff in Hu as [Ha Hu].
    rewrite sapp_cons. destruct t as [|b t].
    + rewrite sapp_nil_l, prefix_cons, Ascii.eqb_sym, Ha. reflexivity.
    + cbn [has_char] in Ht. apply orb_false_iff in Ht as [_ Ht].
      rewrite sapp_cons, prefix_cons, (IH t Hu Ht).
      cbn [String.eqb]. rewrite andb_assoc. reflexivity.
Qed.

(** A match that reaches the first [c] of the pattern has passed the part
    before it. *)
Lemma prefix_bridge c u v y x :
  has_char c u = false ->
  String.prefix (u +:+ String c v) (y +:+ String c x) = true ->
  String.prefix u y = true.
Proof.
  revert y. induction u as [|a u IH]; intros y Hu H; [apply prefix_empty|].
  cbn [has_char] in Hu. apply orb_false_iff in Hu as [Ha Hu].
  rewrite sapp_cons in H. destruct y as [|b y].
  - rewrite sapp_nil_l, prefix_cons, Ascii.eqb_sym, Ha in H. discriminate.
  - rewrite sapp_cons, prefix_cons in H. apply andb_true_iff in H as [Hab H].
    rewrite prefix_cons, Hab. exact (IH y Hu H).
Qed.

Lemma contains_char c s : contains (str c) s = has_char c s.
Proof.
  induction s as [|d r IH]; [reflexivity|].
  cbn [contains has_char]. rewrite IH. unfold str.
  rewrite prefix_cons, prefix_empty, andb_true_r.
  reflexivity.
Qed.

(** An occurrence starts with the first character of the pattern. *)
Lemma contains_first c0 pat a b :
  has_char c0 a = false ->
  contains (String c0 pat) (a +:+ b) = contains (String c0 pat) b.
Proof.
  induction a as [|c a IH]; intros H; [reflexivity|].
  cbn [has_char] in H. apply orb_false_iff in H as [Hc Ha].
  rewrite sapp_cons. cbn [contains]. rewrite (IH Ha), prefix_cons, Hc.
  reflexivity.
Qed.

Lemma absent_after c0 pat t s :
  has_char c0 t = false -> contains (String c0 pat) s = false ->
  contains (String c0 pat) (t +:+ s) = false.
Proof. intros Ht Hs. rewrite (contains_first c0 pat t s Ht). exact Hs. Qed.

(** No occurrence runs over a character that the pattern does not hold. *)
Lemma contains_stop pat x s0 w :
  has_char s0 pat = false -> String.prefix pat "" = false ->
  contains pat (x +:+ String s0 w)
  = contains pat x || contains pat (String s0 w).
Proof.
  intros Hb He. induction x as [|c x IH].
  - rewrite sapp_nil_l. cbn [contains]. rewrite He. reflexivity.
  - pose proof (prefix_stop pat (String c x) s0 w Hb He) as H1.
    rewrite sapp_cons in *. cbn [contains]. rewrite H1, IH, orb_assoc.
    reflexivity.
Qed.

(** [sed s/PAT/REP/g] leaves a line without occurrence as it is. *)
Lemma replace_absent pat rep s :
  contains pat s = false -> replace_all pat rep s = s.
Proof.
  unfold replace_all. induction s as [|c r IH]; intros H; [reflexivity|].
  cbn [contains] in H. apply orb_false_iff in H as [H1 H2].
  cbn [replace_go]. rewrite H1, (IH H2). reflexivity.
Qed.

Lemma split_last_absent pat s :
  contains pat s = false -> split_last pat s = None.
Proof.
  induction s as [|c r IH]; intros H.
  - cbn [contains] in H. rewrite orb_false_r in H. cbn [split_last].
    destruct pat; [discriminate | reflexivity].
  - cbn [contains] in H. apply orb_false_iff in H as [H1 H2].
    cbn [split_last]. rewrite (IH H2), H1. reflexivity.
Qed.

Lemma split_last_before pat x s a b :
  split_last pat s = Some (a, b) ->
  split_last pat (x +:+ s) = Some (x +:+ a, b).
Proof.
  intros H. induction x as [|c x IH]; [exact H|].
  rewrite sapp_cons. cbn [split_last]. rewrite IH. reflexivity.
Qed.

(** The last occurrence: no occurrence starts after the head of this
    one. *)
Lemma split_last_found c0 pat x y :
  contains (String c0 pat) (pat +:+ y) = false ->
  split_last (String c0 pat) (x +:+ String c0 pat +:+ y) = Some (x, y).
Proof.
  intros H. rewrite <- (sapp_nil_r x) at 2. apply split_last_before.
  rewrite sapp_cons. cbn [split_last]. rewrite (split_last_absent _ _ H).
  assert (Hp : String.prefix (String c0 pat) (String c0 pat +:+ y) = true)
    by (apply prefix_app; eauto).
  rewrite sapp_cons in Hp. rewrite Hp.
  change (String c0 (pat +:+ y)) with (String c0 pat +:+ y).
  rewrite sdrop_app. reflexivity.
Qed.

Lemma chop_end c x d :
  chop c (x +:+ str d) = if Ascii.eqb c d then Some x else None.
Proof.
  induction x as [|a x IH]; [reflexivity|].
  rewrite sapp_cons. cbn [chop]. rewrite IH.
  destruct (x +:+ str d) eqn:E.
  - destruct x; discriminate.
  - destruct (Ascii.eqb c d); reflexivity.
Qed.

Lemma chop_no_lf c s m : chop c s = Some m -> no_lf s -> no_lf m.
Proof.
  unfold no_lf. revert m. induction s as [|d r IH]; intros m; [discriminate|].
  cbn [chop has_char]. intros H Hs. apply orb_false_iff in Hs as [Hd Hr].
  destruct r as [|e r'].
  - destruct (Ascii.eqb c d); [injection H as <-; reflexivity | discriminate].
  - destruct (chop c (String e r')) as [m'|]; [|discriminate].
    injection H as <-. cbn [has_char]. rewrite Hd. cbn [orb].
    exact (IH m' eq_refl Hr).
Qed.

(** The first line of a text begins the text. *)
Lemma split_nl_head s :
  exists l ls t, split_nl s = l :: ls /\ s = l +:+ t.
Proof.
  induction s as [|c r (l & ls & t & E & Er)].
  - exists "", [], "". split; reflexivity.
  - cbn [split_nl]. destruct (Ascii.eqb c LF).
    + exists "", (split_nl r), (String c r). split; reflexivity.
    + rewrite E. exists (String c l), ls, t. split; [reflexivity|].
      rewrite sapp_cons, <- Er. reflexivity.
Qed.

Lemma contains_split_nl pat s :
  String.prefix pat "" = false ->
  contains pat s = false ->
  Forall (fun l => contains pat l = false) (split_nl s).
Proof.
  intros Hp. induction s as [|c r IH]; intros H.
  - repeat constructor. cbn [contains]. rewrite Hp. reflexivity.
  - cbn [contains] in H. apply orb_false_iff in H as [H1 H2].
    specialize (IH H2). cbn [split_nl].
    destruct (Ascii.eqb c LF).
    + constructor; [|exact IH]. cbn [contains]. rewrite Hp. reflexivity.
    + destruct (split_nl_head r) as (l & ls & t & E & Er).
      rewrite E in *. apply Forall_cons in IH as [Hl Hls].
      constructor; [|exact Hls].
      cbn [contains]. rewrite Hl, orb_false_r.
      destruct (String.prefix pat (String c l)) eqn:E1; [|reflexivity].
      apply (prefix_weaken _ _ t) in E1. rewrite sapp_cons, <- Er in E1.
      congruence.
Qed.

Lemma flags_no_char c t :
  is_echo_flag c = false -> all_chars is_echo_flag t = true ->
  has_char c t = false.
Proof.
  intros Hf. induction t as [|x t IH]; [reflexivity|].
  cbn [has_char all_chars]. intros E. apply andb_true_iff in E as [Ex Et].
  rewrite (IH Et), orb_false_r.
  destruct (Ascii.eqb c x) eqn:H; [|reflexivity].
  apply Ascii.eqb_eq in H as <-. congruence.
Qed.

(** [echo] prints its argument when that holds a character that is no
    option letter. *)
Lemma echo_text c s :
  has_char c s = true -> is_echo_flag c = false -> Ascii.eqb c "-" = false ->
  echo s = split_nl s.
Proof.
  intros H Hf Hd. unfold echo. destruct s as [|a s']; [reflexivity|].
  destruct (Ascii.eqb a "-") eqn:Ha.
  - apply Ascii.eqb_eq in Ha as ->. destruct s' as [|d r]; [reflexivity|].
    destruct (all_chars is_echo_flag (String d r)) eqn:E; [|reflexivity].
    apply (flags_no_char c _ Hf) in E.
    cbn [has_char] in H. rewrite Hd in H. cbn [orb] in H.
    change (has_char c (String d r) = true) in H. congruence.
  - destruct a as [[] [] [] [] [] [] [] []]; try reflexivity; discriminate.
Qed.

Lemma contains_echo pat s :
  String.prefix pat "" = false ->
  contains pat s = false ->
  Forall (fun l => contains pat l = false) (echo s).
Proof.
  intros Hp H. pose proof (contains_split_nl pat s Hp H) as Hs.
  assert (He : contains pat "" = false)
    by (cbn [contains]; rewrite Hp; reflexivity).
  unfold echo. destruct s as [|c s']; [exact Hs|].
  destruct (Ascii.eqb c "-") eqn:Hc.
  - apply Ascii.eqb_eq in Hc as ->. destruct s' as [|d r]; [exact Hs|].
    destruct (all_chars is_echo_flag (String d r)); [|exact Hs].
    destruct (has_char "n" (String d r)); repeat constructor. exact He.
  - destruct c as [[] [] [] [] [] [] [] []]; try exact Hs; discriminate.
Qed.

(** ** The numeral written back *)

Section Numerals.
Local Open Scope Z_scope.

Lemma pretty_N_char_digit x :
  (x < 10)%N -> digit (pretty_N_char x) = Some (Z.of_N x).
Proof.
  intros H.
  assert (Hx : (x = 0 \/ x = 1 \/ x = 2 \/ x = 3 \/ x = 4 \/ x = 5 \/ x = 6
                \/ x = 7 \/ x = 8 \/ x = 9)%N) by lia.
  repeat (destruct Hx as [-> | Hx]; [reflexivity|]). subst. reflexivity.
Qed.

(** The digits of [x] are put in front of what is already written. *)
Lemma pretty_N_go_app x s : pretty_N_go x s = pretty_N_go x "" +:+ s.
Proof.
  revert s. induction x as [x IH] using (well_founded_induction N.lt_wf_0).
  intros s. destruct (decide (0 < x)%N) as [Hx|Hx].
  - rewrite (pretty_N_go_step x s Hx), (pretty_N_go_step x "" Hx).
    assert (Hd : (x `div` 10 < x)%N) by (apply N.div_lt; lia).
    rewrite (IH _ Hd (String _ s)), (IH _ Hd (String _ "")).
    rewrite sapp_assoc. reflexivity.
  - assert (x = 0%N) by lia. subst. reflexivity.
Qed.

Lemma pretty_N_go_digits x : all_chars is_digit (pretty_N_go x "") = true.
Proof.
  induction x as [x IH] using (well_founded_induction N.lt_wf_0).
  destruct (decide (0 < x)%N) as [Hx|Hx].
  - rewrite (pretty_N_go_step x "" Hx), pretty_N_go_app, all_chars_app.
    rewrite IH by (apply N.div_lt; lia). cbn [all_chars andb].
    unfold is_digit. rewrite pretty_N_char_digit; [reflexivity|].
    apply N.mod_lt. lia.
  - assert (x = 0%N) by lia. subst. reflexivity.
Qed.

Lemma decimal_go_app acc a b :
  all_chars is_digit a = true ->
  decimal_go acc (a +:+ b) = decimal_go (decimal_go acc a) b.
Proof.
  revert acc. induction a as [|c a IH]; intros acc H; [reflexivity|].
  cbn [all_chars] in H. apply andb_true_iff in H as [Hc Ha].
  destruct (is_digit_some c Hc) as [d Hd].
  rewrite sapp_cons. cbn [decimal_go]. rewrite Hd. apply IH, Ha.
Qed.

(** Reading back what was printed gives the number. *)
Lemma decimal_pretty_N_go x : decimal (pretty_N_go x "") = Z.of_N x.
Proof.
  unfold decimal.
  induction x as [x IH] using (well_founded_induction N.lt_wf_0).
  destruct (decide (0 < x)%N) as [Hx|Hx].
  - rewrite (pretty_N_go_step x "" Hx), pretty_N_go_app.
    rewrite decimal_go_app by apply pretty_N_go_digits.
    rewrite IH by (apply N.div_lt; lia). cbn [decimal_go].
    rewrite pretty_N_char_digit by (apply N.mod_lt; lia).
    pose proof (N.div_mod' x 10) as Hdm. clear IH.
    set (q := (x `div` 10)%N) in *. set (r := (x `mod` 10)%N) in *.
    clearbody q r. lia.
  - assert (x = 0%N) by lia. subst. reflexivity.
Qed.

Lemma pretty_N_go_nonzero x :
  (0 < x)%N -> starts_nonzero (pretty_N_go x "") = true.
Proof.
  induction x as [x IH] using (well_founded_induction N.lt_wf_0).
  intros Hx. rewrite (pretty_N_go_step x "" Hx), pretty_N_go_app.
  destruct (decide (0 < x `div` 10)%N) as [Hq|Hq].
  - assert (Hd : (x `div` 10 < x)%N) by (apply N.div_lt; lia).
    specialize (IH _ Hd Hq).
    destruct (pretty_N_go (x `div` 10) "") as [|c r]; [discriminate|].
    exact IH.
  - assert (Hz : (x `div` 10 = 0)%N) by (apply N.le_0_r, N.nlt_ge, Hq).
    rewrite Hz.
    assert (Hlt : (x < 10)%N) by (apply N.div_small_iff in Hz; lia).
    rewrite N.mod_small by exact Hlt.
    assert (Hx' : (x = 1 \/ x = 2 \/ x = 3 \/ x = 4 \/ x = 5 \/ x = 6
                   \/ x = 7 \/ x = 8 \/ x = 9)%N) by lia.
    repeat (destruct Hx' as [-> | Hx']; [reflexivity|]). subst. reflexivity.
Qed.

Lemma canonical_nonzero s :
  all_chars is_digit s = true -> starts_nonzero s = true -> canonical s = true.
Proof.
  intros Hd Hn. unfold canonical, is_number.
  destruct s as [|c r]; [discriminate|]. rewrite Hd. cbn [andb].
  cbn [starts_nonzero] in Hn. apply negb_true_iff, Ascii.eqb_neq in Hn.
  destruct c as [[] [] [] [] [] [] [] []]; try reflexivity.
  contradiction Hn. reflexivity.
Qed.

(** The numeral of a number that is not negative is canonical and denotes
    the number. *)
Lemma pretty_canonical z :
  0 <= z -> canonical (pretty z) = true /\ decimal (pretty z) = z.
Proof.
  intros Hz. destruct z as [|p|p]; [split; reflexivity | | lia].
  change (pretty (Z.pos p)) with (pretty (N.pos p)).
  unfold pretty, pretty_N. destruct (decide (N.pos p = 0%N)); [discriminate|].
  split.
  - apply canonical_nonzero; [apply pretty_N_go_digits|].
    apply pretty_N_go_nonzero. lia.
  - rewrite decimal_pretty_N_go. reflexivity.
Qed.

Lemma canonical_number s : canonical s = true -> is_number s = true.
Proof.
  unfold canonical. intros H. apply andb_true_iff in H as [H _]. exact H.
Qed.

Lemma decimal_nonneg s : is_number s = true -> 0 <= decimal s.
Proof.
  intros H. apply (decimal_go_mono s 0 (is_number_digits s H)). lia.
Qed.

(** Line 140 on a canonical numeral below 2^63 - 1. *)
Lemma succ_string_pretty it :
  canonical it = true -> decimal it + 1 < 2 ^ 63 ->
  succ_string it = Some (pretty (decimal it + 1)).
Proof.
  intros Hc Hlt. pose proof (decimal_nonneg it (canonical_number it Hc)) as H0.
  unfold succ_string. rewrite (strlong_canonical it Hc) by lia.
  rewrite wrap64_small by lia. reflexivity.
Qed.

Lemma succ_string_canonical it :
  canonical it = true -> decimal it + 1 < 2 ^ 63 ->
  exists next, succ_string it = Some next /\ canonical next = true
               /\ decimal next = decimal it + 1.
Proof.
  intros Hc Hlt. pose proof (decimal_nonneg it (canonical_number it Hc)) as H0.
  exists (pretty (decimal it + 1)).
  split; [apply succ_string_pretty; assumption|]. apply pretty_canonical. lia.
Qed.

End Numerals.

(** X1.  Line 140 on a numeral without leading zero that denotes a number
    below 2^63 - 1: the next counter is the numeral of the number plus one,
    again without leading zero, so that the counter can be read back at the
    next stop event. *)
Theorem next_iteration_numeral (it : string) :
  canonical it = true -> (decimal it + 1 < 2 ^ 63)%Z ->
  succ_string it = Some (pretty (decimal it + 1)%Z)
  /\ canonical (pretty (decimal it + 1)%Z) = true
  /\ decimal (pretty (decimal it + 1)%Z) = (decimal it + 1)%Z.
Proof.
  intros Hc Hlt. pose proof (decimal_nonneg it (canonical_number it Hc)) as H0.
  split; [apply succ_string_pretty; assumption|]. apply pretty_canonical. lia.
Qed.

Lemma next_iteration_numeral_witness :
  succ_string "41" = Some (pretty (decimal "41" + 1)%Z)
  /\ canonical (pretty (decimal "41" + 1)%Z) = true
  /\ decimal (pretty (decimal "41" + 1)%Z) = (decimal "41" + 1)%Z.
Proof.
  apply (next_iteration_numeral "41"); [reflexivity | vm_compute; reflexivity].
Defined.

(** ** Every run, by its exit *)

Lemma examine_shape fs pid state last_line promise r :
  fs !! RALPH_STATE_FILE = Some state ->
  examine fs last_line promise = Some r -> run_shape fs pid r.
Proof.
  intros Hs. unfold examine. case_ifs; intros [= <-] || discriminate;
    eapply shape_terminal; eauto.
Qed.

Lemma inspect_shape fs pid state input promise r :
  fs !! RALPH_STATE_FILE = Some state ->
  inspect fs input promise = Some r -> run_shape fs pid r.
Proof.
  intros Hs. unfold inspect.
  destruct (TRANSCRIPT_PATH input) as [path|];
    [|intros [= <-]; eapply shape_shell; eauto].
  destruct (String.eqb path "");
    [intros [= <-]; eapply shape_terminal; eauto|].
  destruct (fs !! path) as [transcript|];
    [|intros [= <-]; eapply shape_terminal; eauto].
  destruct (negb (has_assistant transcript));
    [intros [= <-]; eapply shape_terminal; eauto|].
  apply examine_shape with (state := state). exact Hs.
Qed.

Lemma continue_shape fs pid state it cp :
  fs !! RALPH_STATE_FILE = Some state ->
  run_shape fs pid (continue fs pid state it cp).
Proof.
  intros Hs. unfold continue.
  destruct (String.eqb (PROMPT_TEXT state) "");
    [eapply shape_terminal; eauto|].
  destruct (succ_string it) as [next|];
    [eapply shape_block; eauto | eapply shape_shell; eauto].
Qed.

Lemma run_has_shape fs stdin pid : run_shape fs pid (run fs stdin pid).
Proof.
  unfold run. destruct (fs !! RALPH_STATE_FILE) as [state|] eqn:Hs;
    [|apply shape_no_loop, Hs].
  destruct (ITERATION (FRONTMATTER state)) as [it|];
    [|eapply shape_shell; eauto].
  destruct (MAX_ITERATIONS (FRONTMATTER state)) as [mx|];
    [|eapply shape_shell; eauto].
  destruct (COMPLETION_PROMISE (FRONTMATTER state)) as [cp|];
    [|eapply shape_shell; eauto].
  destruct (negb (is_number it)); [eapply shape_terminal; eauto|].
  destruct (negb (is_number mx)); [eapply shape_terminal; eauto|].
  destruct (cap_reached it mx); [eapply shape_terminal; eauto 6|].
  unfold after_cap.
  destruct (inspect fs (strip_nl stdin) cp) as [r|] eqn:E.
  - eapply inspect_shape; eauto.
  - apply continue_shape, Hs.
Qed.

(** X2.  The controller touches two paths only, the state file and its
    temporary file: every other file, the transcript among them, is after
    the run what it was before. *)
Theorem run_other_files (fs : gmap string (list string)) (stdin : string)
    (pid : N) (p : string) :
  p <> RALPH_STATE_FILE -> p <> TEMP_FILE pid ->
  files (run fs stdin pid) !! p = fs !! p.
Proof.
  intros H1 H2.
  destruct (run_has_shape fs stdin pid); cbn [files exit0 shell_exit].
  - reflexivity.
  - reflexivity.
  - unfold rm_state. apply lookup_delete_ne. congruence.
  - apply update_files; assumption.
Qed.

Lemma run_other_files_witness :
  let fs := Sample.workdir (Sample.state_file "2" "5" "null" ["Fix the bug"])
              [Sample.assistant_line "working"] in
  files (run fs Sample.hook_input 4242) !! Sample.transcript_path
  = fs !! Sample.transcript_path.
Proof.
  intros fs.
  apply (run_other_files fs Sample.hook_input 4242 Sample.transcript_path);
    vm_compute; discriminate.
Defined.

(** X3.  The state file by the exit of the run: untouched when there is no
    loop and when the shell gives up (status 1), rewritten and kept when the
    run blocks, deleted at every other exit; the status is 1 at the exits of
    the shell and 0 everywhere else. *)
Theorem run_state_file (fs : gmap string (list string)) (stdin : string)
    (pid : N) :
  let r := run fs stdin pid in
  match exit_at r with
  | NoLoop =>
      exit_code r = 0%Z /\ fs !! RALPH_STATE_FILE = None /\ files r = fs
  | PipelineFailed | UnboundVariable =>
      exit_code r = 1%Z /\ is_Some (fs !! RALPH_STATE_FILE) /\ files r = fs
  | Block =>
      exit_code r = 0%Z
      /\ files r !! TEMP_FILE pid = None
      /\ exists state next,
           fs !! RALPH_STATE_FILE = Some state
           /\ files r !! RALPH_STATE_FILE
              = Some (map (sed_iteration next) state)
  | _ =>
      exit_code r = 0%Z /\ is_Some (fs !! RALPH_STATE_FILE)
      /\ files r = delete RALPH_STATE_FILE fs
      /\ files r !! RALPH_STATE_FILE = None
  end.
Proof.
  intros r. subst r.
  destruct (run_has_shape fs stdin pid)
    as [Hs | p state Hs Hp | p out err state Hs Hp _ | state next d Hs].
  - cbn. auto.
  - destruct Hp as [-> | ->]; cbn; eauto.
  - cbn [exit_at exit_code files exit0]. unfold rm_state.
    destruct p; try discriminate Hp;
      (split; [reflexivity|]; split; [eauto|];
       split; [reflexivity | apply lookup_delete_eq]).
  - cbn [exit_at exit_code files]. split; [reflexivity|].
    destruct (update_files pid next state fs) as (H1 & H2 & _).
    split; [exact H2|]. eauto.
Qed.


(** X5.  Once the loop has ended it stays ended: after a run that ends the
    loop, whatever the reason, every later stop event finds no state file
    and is allowed, with nothing printed and nothing changed. *)
Theorem ended_loop_stays_ended (fs : gmap string (list string))
    (stdin : string) (pid : N) (stdin' : string) (pid' : N) :
  terminal_exit (exit_at (run fs stdin pid)) = true ->
  run (files (run fs stdin pid)) stdin' pid'
  = exit0 NoLoop [] [] (files (run fs stdin pid)).
Proof.
  destruct (run_has_shape fs stdin pid)
    as [Hs | p state Hs Hp | p out err state Hs Hp _ | state next d Hs];
    cbn [exit_at files exit0 shell_exit].
  - discriminate.
  - destruct Hp as [-> | ->]; discriminate.
  - intros _. unfold run, rm_state. rewrite lookup_delete_eq. reflexivity.
  - discriminate.
Qed.

Lemma ended_loop_stays_ended_witness :
  let fs := Sample.workdir (Sample.state_file "5" "5" "null" ["Fix the bug"])
              [Sample.assistant_line "working"] in
  run (files (run fs Sample.hook_input 4242)) Sample.hook_input 4243
  = exit0 NoLoop [] [] (files (run fs Sample.hook_input 4242)).
Proof.
  intros fs.
  apply (ended_loop_stays_ended fs Sample.hook_input 4242 Sample.hook_input
           4243).
  vm_compute. reflexivity.
Defined.

(** ** The escaping of the decision *)

Lemma replace_one c rep s :
  replace_all (str c) rep s
  = expand (fun d => if Ascii.eqb c d then rep else str d) s.
Proof.
  unfold replace_all. induction s as [|d r IH]; [reflexivity|].
  cbn [replace_go expand]. unfold str at 1. cbn [String.prefix].
  destruct (ascii_dec c d) as [->|Hne].
  - rewrite prefix_empty, Ascii.eqb_refl. cbn [str String.length Nat.sub].
    rewrite IH. reflexivity.
  - apply Ascii.eqb_neq in Hne. rewrite Hne, IH. reflexivity.
Qed.

Lemma expand_app f a b : expand f (a +:+ b) = expand f a +:+ expand f b.
Proof.
  induction a as [|c a IH]; [reflexivity|].
  rewrite sapp_cons. cbn [expand]. rewrite IH, sapp_assoc. reflexivity.
Qed.

Lemma expand_expand f g s :
  expand g (expand f s) = expand (fun c => expand g (f c)) s.
Proof.
  induction s as [|c r IH]; [reflexivity|].
  cbn [expand]. rewrite expand_app, IH. reflexivity.
Qed.

Lemma expand_ext f g s : (forall c, f c = g c) -> expand f s = expand g s.
Proof.
  intros H. induction s as [|c r IH]; [reflexivity|].
  cbn [expand]. rewrite H, IH. reflexivity.
Qed.

(** The five substitutions of [escape_json] amount to one pass that
    replaces each character by its escape. *)
Lemma escape_json_expand s : escape_json s = expand esc_char s.
Proof.
  unfold escape_json. rewrite !replace_one, !expand_expand.
  apply expand_ext. intros c.
  destruct c as [[] [] [] [] [] [] [] []]; reflexivity.
Qed.

Lemma unescape_esc c rest :
  unescape_json (esc_char c +:+ rest) = String c (unescape_json rest).
Proof.
  destruct c as [[] [] [] [] [] [] [] []]; reflexivity.
Qed.

(** X6.  The escaping of lines 175-184 loses nothing: reading the escapes
    back, a backslash with the character after it, gives the string that
    was escaped, whatever backslashes, quotes and control characters it
    holds. *)
Theorem escape_json_round_trip (s : string) :
  unescape_json (escape_json s) = s.
Proof.
  rewrite escape_json_expand. induction s as [|c r IH]; [reflexivity|].
  cbn [expand]. rewrite unescape_esc, IH. reflexivity.
Qed.

Lemma escape_json_no_control s :
  all_chars (fun c => negb (is_raw_control c)) (escape_json s) = true.
Proof.
  rewrite escape_json_expand. induction s as [|c r IH]; [reflexivity|].
  cbn [expand]. rewrite all_chars_app, IH, andb_true_r.
  destruct c as [[] [] [] [] [] [] [] []]; reflexivity.
Qed.

(** X7.  The decision is printed on one line: whatever the prompt and the
    promise hold, the line has no newline, no carriage return and no tab. *)
Theorem block_line_one_line (d : Decision) :
  all_chars (fun c => negb (is_raw_control c)) (block_line d) = true.
Proof.
  unfold block_line, q.
  repeat (rewrite ?sapp_cons, ?all_chars_app; cbn [all_chars str]).
  rewrite !escape_json_no_control. reflexivity.
Qed.

(** ** The state file as it is laid out *)

Lemma no_lf_drop_spaces s : no_lf s -> no_lf (drop_spaces s).
Proof.
  unfold no_lf. induction s as [|c r IH]; intros H; [exact H|].
  cbn [drop_spaces]. destruct (Ascii.eqb c " ") eqn:E.
  - apply Ascii.eqb_eq in E as ->. cbn [has_char] in H.
    apply orb_false_iff in H as [_ H]. exact (IH H).
  - destruct c as [[] [] [] [] [] [] [] []]; try exact H; discriminate.
Qed.

Lemma no_lf_strip_quotes s : no_lf s -> no_lf (strip_quotes s).
Proof.
  intros H. unfold strip_quotes. destruct s as [|c r]; [exact H|].
  destruct (Ascii.eqb c DQ); [|exact H].
  destruct (chop DQ r) as [m|] eqn:E; [|exact H].
  apply (chop_no_lf _ _ _ E). unfold no_lf in *. cbn [has_char] in H.
  apply orb_false_iff in H as [_ H]. exact H.
Qed.

Lemma sed_frontmatter_no_delim ls :
  Forall (fun l => is_delim l = false) ls -> sed_frontmatter false ls = [].
Proof.
  induction 1 as [|l r Hl _ IH]; [reflexivity|].
  cbn [sed_frontmatter]. rewrite Hl. exact IH.
Qed.

Lemma sed_del_key_prefix key rest :
  sed_del_key key (key +:+ rest) = drop_spaces rest.
Proof.
  assert (Hp : String.prefix key (key +:+ rest) = true)
    by (apply prefix_app; eauto).
  destruct key as [|c k]; [destruct rest; reflexivity|].
  rewrite sapp_cons in *. cbn [sed_del_key]. rewrite Hp.
  rewrite <- sapp_cons. rewrite sdrop_app. reflexivity.
Qed.

Section Layout.
Variables (it mx cp : string) (body : list string).
Hypothesis it_no_lf : no_lf it.
Hypothesis mx_no_lf : no_lf mx.
Hypothesis cp_no_lf : no_lf cp.
Hypothesis body_no_lf : Forall no_lf body.
Hypothesis body_stray :
  Forall (fun l => field_line l = false) (stray_header body).

(** The header of the layout, and what the body adds to it. *)
Lemma layout_frontmatter :
  sed_frontmatter false (Sample.state_file it mx cp body)
  = header_lines it mx cp ++ stray_header body.
Proof. reflexivity. Qed.

Lemma layout_body_eq :
  awk_body 0 (Sample.state_file it mx cp body) = List.filter not_delim body.
Proof.
  rewrite awk_body_after_delims.
  change (Spec.after_delims (2 - 0) (Sample.state_file it mx cp body))
    with (Spec.after_delims 0 body).
  rewrite after_delims_0. reflexivity.
Qed.

Lemma layout_no_lf :
  Forall no_lf (sed_frontmatter false (Sample.state_file it mx cp body)).
Proof.
  rewrite layout_frontmatter. apply Forall_app. split.
  - repeat constructor; apply no_lf_app; try assumption; reflexivity.
  - apply sed_frontmatter_no_lf, body_no_lf.
Qed.

Lemma stray_filter key :
  (forall l, String.prefix key l = true -> field_line l = true) ->
  List.filter (String.prefix key) (stray_header body) = [].
Proof.
  intros Hk. apply filter_nil_forall. intros l Hl.
  rewrite Forall_forall in body_stray.
  specialize (body_stray l (proj2 (list_elem_of_In _ _) Hl)).
  destruct (String.prefix key l) eqn:E; [|reflexivity].
  rewrite (Hk l E) in body_stray. discriminate.
Qed.

Lemma layout_fields :
  ITERATION (FRONTMATTER (Sample.state_file it mx cp body))
  = Some (drop_spaces it)
  /\ MAX_ITERATIONS (FRONTMATTER (Sample.state_file it mx cp body))
     = Some (drop_spaces mx)
  /\ COMPLETION_PROMISE (FRONTMATTER (Sample.state_file it mx cp body))
     = Some (strip_quotes (drop_spaces cp))
  /\ PROMPT_TEXT (Sample.state_file it mx cp body)
     = cmdsubst (List.filter not_delim body).
Proof.
  unfold ITERATION, MAX_ITERATIONS, COMPLETION_PROMISE, field, FRONTMATTER,
    PROMPT_TEXT.
  rewrite !grep_variable by (reflexivity || apply layout_no_lf).
  rewrite layout_body_eq.
  rewrite layout_frontmatter. unfold grep_prefix.
  rewrite !List.filter_app, !stray_filter
    by (intros l Hl; unfold field_line; rewrite Hl, ?orb_true_r; reflexivity).
  repeat split.
  - change (List.filter (String.prefix "iteration:")
              (header_lines it mx cp))
      with ["iteration:" +:+ String " " it].
    cbn [app map]. rewrite sed_del_key_prefix.
    rewrite cmdsubst_line; [reflexivity|].
    apply (no_lf_drop_spaces (String " " it)), it_no_lf.
  - change (List.filter (String.prefix "max_iterations:")
              (header_lines it mx cp))
      with ["max_iterations:" +:+ String " " mx].
    cbn [app map]. rewrite sed_del_key_prefix.
    rewrite cmdsubst_line; [reflexivity|].
    apply (no_lf_drop_spaces (String " " mx)), mx_no_lf.
  - change (List.filter (String.prefix "completion_promise:")
              (header_lines it mx cp))
      with ["completion_promise:" +:+ String " " cp].
    cbn [app map]. rewrite sed_del_key_prefix.
    rewrite cmdsubst_line; [reflexivity|].
    apply no_lf_strip_quotes, (no_lf_drop_spaces (String " " cp)), cp_no_lf.
Qed.

End Layout.

(** X8.  The parse of lines 24-28 and 144 on the documented layout of the
    state file, three header fields between two delimiter lines and then
    the body: each field is read back without the blanks that lead it, the
    promise also without the quotes around it, and the prompt is the body
    less its delimiter lines and its trailing newlines. *)
Theorem state_file_parse (it mx cp : string) (body : list string) :
  no_lf it -> no_lf mx -> no_lf cp -> Forall no_lf body ->
  Forall (fun l => field_line l = false) (stray_header body) ->
  let state := Sample.state_file it mx cp body in
  ITERATION (FRONTMATTER state) = Some (drop_spaces it)
  /\ MAX_ITERATIONS (FRONTMATTER state) = Some (drop_spaces mx)
  /\ COMPLETION_PROMISE (FRONTMATTER state)
     = Some (strip_quotes (drop_spaces cp))
  /\ PROMPT_TEXT state = cmdsubst (List.filter not_delim body).
Proof. intros Hi Hm Hc Hb Hs state. apply layout_fields; assumption. Qed.

Lemma state_file_parse_witness :
  let state := Sample.state_file "2" "5" (q "ALL DONE")
                 ["Fix the bug"; ""; "Then stop."] in
  ITERATION (FRONTMATTER state) = Some (drop_spaces "2")
  /\ MAX_ITERATIONS (FRONTMATTER state) = Some (drop_spaces "5")
  /\ COMPLETION_PROMISE (FRONTMATTER state)
     = Some (strip_quotes (drop_spaces (q "ALL DONE")))
  /\ PROMPT_TEXT state
     = cmdsubst (List.filter not_delim ["Fix the bug"; ""; "Then stop."]).
Proof.
  apply (state_file_parse "2" "5" (q "ALL DONE")
           ["Fix the bug"; ""; "Then stop."]);
    try reflexivity; repeat constructor.
Defined.

(** X9.  A counter or a cap that is not a string of digits ends the loop:
    on the documented layout (no newline inside a field or a body line, no
    body line between a third and a fourth delimiter line that looks like a
    header field), when the [iteration] field without its leading blanks is
    not a number the run deletes the state file and nothing else, reports
    the field and its value on the error stream and allows the stop with
    status 0, nothing on standard output; when it is a number and the
    [max_iterations] field is not, the same happens for that field. *)
Theorem corrupt_counter_stops (fs : gmap string (list string))
    (stdin : string) (pid : N) (it mx cp : string) (body : list string) :
  fs !! RALPH_STATE_FILE = Some (Sample.state_file it mx cp body) ->
  no_lf it -> no_lf mx -> no_lf cp -> Forall no_lf body ->
  Forall (fun l => field_line l = false) (stray_header body) ->
  (is_number (drop_spaces it) = false ->
   run fs stdin pid
   = {| exit_at := CorruptIteration; exit_code := 0; stdout := [];
        stderr := corrupt_field_msg "iteration" (drop_spaces it);
        decision := None; files := delete RALPH_STATE_FILE fs |})
  /\ (is_number (drop_spaces it) = true ->
      is_number (drop_spaces mx) = false ->
      run fs stdin pid
      = {| exit_at := CorruptMaxIterations; exit_code := 0; stdout := [];
           stderr := corrupt_field_msg "max_iterations" (drop_spaces mx);
           decision := None; files := delete RALPH_STATE_FILE fs |}).
Proof.
  intros Hs Hi Hm Hc Hb Hst.
  destruct (layout_fields it mx cp body Hi Hm Hc Hb Hst)
    as (Pi & Pm & Pc & _).
  rewrite (run_parsed fs stdin pid _ _ _ _ Hs Pi Pm Pc).
  split.
  - intros ->. reflexivity.
  - intros -> ->. reflexivity.
Qed.

Lemma corrupt_counter_stops_witness :
  let fs := Sample.workdir (Sample.state_file "two" "5" "null" ["Fix the bug"])
              [Sample.assistant_line "working"] in
  run fs Sample.hook_input 4242
  = {| exit_at := CorruptIteration; exit_code := 0; stdout := [];
       stderr := corrupt_field_msg "iteration" (drop_spaces "two");
       decision := None; files := delete RALPH_STATE_FILE fs |}.
Proof.
  intros fs.
  apply (proj1 (corrupt_counter_stops fs Sample.hook_input 4242 "two" "5"
                  "null" ["Fix the bug"] eq_refl eq_refl eq_refl eq_refl
                  ltac:(repeat constructor) ltac:(repeat constructor))).
  reflexivity.
Defined.

(** ** The blocked stop *)

Lemma digits_no_lf s : all_chars is_digit s = true -> no_lf s.
Proof.
  unfold no_lf. induction s as [|c r IH]; [reflexivity|].
  cbn [all_chars has_char]. intros H. apply andb_true_iff in H as [Hc Hr].
  rewrite (IH Hr), orb_false_r.
  destruct (Ascii.eqb LF c) eqn:E; [|reflexivity].
  apply Ascii.eqb_eq in E as <-. discriminate.
Qed.

Lemma number_drop_spaces s : is_number s = true -> drop_spaces s = s.
Proof.
  intros H. pose proof (is_number_digits s H) as Hd.
  destruct s as [|c r]; [reflexivity|].
  cbn [all_chars] in Hd. apply andb_true_iff in Hd as [Hc _].
  cbn [drop_spaces].
  destruct c as [[] [] [] [] [] [] [] []]; try reflexivity; discriminate.
Qed.

Lemma layout_update next it mx cp body :
  map (sed_iteration next) (Sample.state_file it mx cp body)
  = Sample.state_file next mx cp (map (sed_iteration next) body).
Proof.
  unfold Sample.state_file. rewrite map_app. f_equal. cbn [map].
  assert (H : sed_iteration next ("iteration: " +:+ it)
              = "iteration: " +:+ next).
  { unfold sed_iteration.
    assert (Hp : String.prefix "iteration: " ("iteration: " +:+ it) = true)
      by (apply prefix_app; eauto).
    rewrite Hp. reflexivity. }
  rewrite H. reflexivity.
Qed.

Lemma stray_header_update next body :
  Forall (fun l => field_line l = false) (stray_header body) ->
  Forall (fun l => field_line l = false)
    (stray_header (map (sed_iteration next) body)).
Proof.
  unfold stray_header. rewrite sed_frontmatter_update.
  intros H. apply Forall_map. eapply Forall_impl; [exact H|].
  intros l Hl. cbn beta. unfold sed_iteration.
  destruct (String.prefix "iteration: " l) eqn:E; [|exact Hl].
  apply prefix_app in E as [t ->]. discriminate Hl.
Qed.

Section BlockStep.
Variable fs : gmap string (list string).
Variables (stdin : string) (pid : N).
Variables (it mx cp : string) (body : list string).
Hypothesis state_layout :
  fs !! RALPH_STATE_FILE = Some (Sample.state_file it mx cp body).
Hypothesis it_canonical : canonical it = true.
Hypothesis mx_canonical : canonical mx = true.
Hypothesis it_small : (decimal it < 2 ^ 63)%Z.
Hypothesis mx_small : (decimal mx < 2 ^ 63)%Z.
Hypothesis cp_no_lf : no_lf cp.
Hypothesis body_no_lf : Forall no_lf body.
Hypothesis body_stray :
  Forall (fun l => field_line l = false) (stray_header body).
Hypothesis blocked : exit_at (run fs stdin pid) = Block.

Lemma blocked_run :
  cap_reached it mx = false
  /\ exists next,
       succ_string it = Some next
       /\ run fs stdin pid
          = (let d := {| reason := cmdsubst (List.filter not_delim body);
                         systemMessage :=
                           SYSTEM_MSG next (strip_quotes (drop_spaces cp)) |} in
             {| exit_at := Block; exit_code := 0; stdout := [block_line d];
                stderr := []; decision := Some d;
                files := update pid next (Sample.state_file it mx cp body)
                           fs |}).
Proof.
  pose proof (canonical_number _ it_canonical) as Hi.
  pose proof (canonical_number _ mx_canonical) as Hm.
  destruct (layout_fields it mx cp body
              (digits_no_lf _ (is_number_digits _ Hi))
              (digits_no_lf _ (is_number_digits _ Hm))
              cp_no_lf body_no_lf body_stray) as (Pi & Pm & Pc & Pp).
  rewrite (number_drop_spaces _ Hi) in Pi.
  rewrite (number_drop_spaces _ Hm) in Pm.
  revert blocked.
  rewrite (run_valid fs stdin pid _ it mx _ state_layout Pi Pm Pc Hi Hm).
  destruct (cap_reached it mx); [discriminate|].
  intros Hb. split; [reflexivity|].
  revert Hb. unfold after_cap.
  destruct (inspect fs (strip_nl stdin) (strip_quotes (drop_spaces cp)))
    as [r|] eqn:E.
  - intros Hb. apply inspect_exit_at in E. rewrite Hb in E. discriminate.
  - unfold continue. rewrite Pp.
    destruct (String.eqb (cmdsubst (List.filter not_delim body)) "");
      [discriminate|].
    destruct (succ_string it) as [next|]; [|discriminate].
    intros _. exists next. split; reflexivity.
Qed.

Lemma blocked_below_cap : (0 < decimal mx -> decimal it < decimal mx)%Z.
Proof.
  destruct blocked_run as [Hc _].
  rewrite (cap_reached_decimal it mx it_canonical mx_canonical it_small
             mx_small) in Hc.
  intros H0. apply andb_false_iff in Hc as [Hc | Hc].
  - apply Z.ltb_ge in Hc. lia.
  - apply Z.leb_gt in Hc. exact Hc.
Qed.

End BlockStep.

(** X10.  A blocked stop on the documented layout, counter and cap written
    without leading zero: the counter of the state file advances by exactly
    one and stays within the cap, the rest of the header stays, and the
    reason of the decision is the body less its delimiter lines. *)
Theorem block_step (fs : gmap string (list string)) (stdin : string) (pid : N)
    (it mx cp : string) (body : list string) :
  fs !! RALPH_STATE_FILE = Some (Sample.state_file it mx cp body) ->
  canonical it = true -> canonical mx = true ->
  (decimal it < 2 ^ 63)%Z -> (0 < decimal mx < 2 ^ 63)%Z ->
  no_lf cp -> Forall no_lf body ->
  Forall (fun l => field_line l = false) (stray_header body) ->
  exit_at (run fs stdin pid) = Block ->
  exists next,
    canonical next = true
    /\ decimal next = (decimal it + 1)%Z
    /\ (decimal next <= decimal mx)%Z
    /\ files (run fs stdin pid) !! RALPH_STATE_FILE
       = Some (Sample.state_file next mx cp (map (sed_iteration next) body))
    /\ (reason <$> decision (run fs stdin pid))
       = Some (cmdsubst (List.filter not_delim body)).
Proof.
  intros Hs Hi Hm Li [L0 Lm] Hc Hb Hst Hblock.
  destruct (blocked_run fs stdin pid it mx cp body Hs Hi Hm Hc Hb Hst Hblock)
    as (_ & next & Hn & ->).
  pose proof (blocked_below_cap fs stdin pid it mx cp body Hs Hi Hm Li Lm Hc Hb
                Hst Hblock L0) as Hlt.
  destruct (succ_string_canonical it Hi ltac:(lia)) as (n' & Hn' & Cn & Dn).
  rewrite Hn in Hn'. injection Hn' as <-.
  exists next. cbn [files decision].
  rewrite (proj1 (update_files _ _ _ _)), layout_update.
  repeat split; try assumption. lia.
Qed.

Lemma block_step_witness :
  let fs := Sample.workdir (Sample.state_file "2" "5" "null" ["Fix the bug"])
              [Sample.assistant_line "working"] in
  exists next,
    canonical next = true
    /\ decimal next = (decimal "2" + 1)%Z
    /\ (decimal next <= decimal "5")%Z
    /\ files (run fs Sample.hook_input 4242) !! RALPH_STATE_FILE
       = Some (Sample.state_file next "5" "null"
                 (map (sed_iteration next) ["Fix the bug"]))
    /\ (reason <$> decision (run fs Sample.hook_input 4242))
       = Some (cmdsubst (List.filter not_delim ["Fix the bug"])).
Proof.
  intros fs.
  apply (block_step fs Sample.hook_input 4242 "2" "5" "null" ["Fix the bug"]);
    try reflexivity; try (vm_compute; reflexivity);
    try (vm_compute; split; reflexivity); repeat constructor.
Defined.

Lemma blocks_bound n : forall it mx cp body,
  canonical it = true -> canonical mx = true ->
  (decimal it < 2 ^ 63)%Z -> (0 < decimal mx < 2 ^ 63)%Z ->
  no_lf cp -> Forall no_lf body ->
  Forall (fun l => field_line l = false) (stray_header body) ->
  blocks n (Sample.state_file it mx cp body) ->
  (Z.of_nat n <= Z.max 0 (decimal mx - decimal it))%Z.
Proof.
  induction n as [|n IH]; intros it mx cp body Hi Hm Li [L0 Lm] Hc Hb Hst Hbl;
    [lia|].
  inversion Hbl as [|n' fs stdin pid state state' Hs Hblock Hfiles Hrest];
    subst.
  destruct (blocked_run fs stdin pid it mx cp body Hs Hi Hm Hc Hb Hst Hblock)
    as (_ & next & Hn & Hrun).
  pose proof (blocked_below_cap fs stdin pid it mx cp body Hs Hi Hm Li Lm Hc Hb
                Hst Hblock L0) as Hlt.
  destruct (succ_string_canonical it Hi ltac:(lia)) as (n' & Hn' & Cn & Dn).
  rewrite Hn in Hn'. injection Hn' as <-.
  rewrite Hrun in Hfiles. cbn [files] in Hfiles.
  rewrite (proj1 (update_files _ _ _ _)), layout_update in Hfiles.
  injection Hfiles as <-.
  assert (Hb' : Forall no_lf (map (sed_iteration next) body)).
  { apply Forall_map. eapply Forall_impl; [exact Hb|].
    intros l Hl. apply sed_iteration_no_lf; [|exact Hl].
    apply digits_no_lf, is_number_digits, canonical_number, Cn. }
  specialize (IH next mx cp _ Cn Hm ltac:(lia) (conj L0 Lm) Hc Hb'
                (stray_header_update next body Hst) Hrest).
  lia.
Qed.

(** X11.  The cap bounds the loop.  The state file is on the documented
    layout (no newline inside the promise or a body line, no body line
    between a third and a fourth delimiter line that looks like a header
    field), its counter and its cap are numerals without leading zero that
    denote values below 2^63, and the cap is positive: then no more stop
    events in a row are blocked, each finding the state file its predecessor
    left, than the cap exceeds the counter by, and none when the counter is
    at the cap or above. *)
Theorem loop_bound (n : nat) (it mx cp : string) (body : list string) :
  canonical it = true -> canonical mx = true ->
  (decimal it < 2 ^ 63)%Z -> (0 < decimal mx < 2 ^ 63)%Z ->
  no_lf cp -> Forall no_lf body ->
  Forall (fun l => field_line l = false) (stray_header body) ->
  blocks n (Sample.state_file it mx cp body) ->
  n <= Z.to_nat (decimal mx - decimal it).
Proof.
  intros Hi Hm Li Lm Hc Hb Hst Hbl.
  pose proof (blocks_bound n it mx cp body Hi Hm Li Lm Hc Hb Hst Hbl). lia.
Qed.

Lemma loop_bound_witness :
  2 <= Z.to_nat (decimal "3" - decimal "1").
Proof.
  apply (loop_bound 2 "1" "3" "null" ["Fix the bug"]);
    try reflexivity; try (vm_compute; reflexivity);
    try (vm_compute; split; reflexivity); try (repeat constructor; fail).
  apply (blocks_S 1
           (Sample.workdir (Sample.state_file "1" "3" "null" ["Fix the bug"])
              [Sample.assistant_line "working"])
           Sample.hook_input 4242 _
           (Sample.state_file "2" "3" "null" ["Fix the bug"]));
    try (vm_compute; reflexivity).
  apply (blocks_S 0
           (Sample.workdir (Sample.state_file "2" "3" "null" ["Fix the bug"])
              [Sample.assistant_line "still working"])
           Sample.hook_input 4243 _
           (Sample.state_file "3" "3" "null" ["Fix the bug"]));
    try (vm_compute; reflexivity).
  apply blocks_O.
Defined.

(** *** On any state file *)

Lemma pretty_N_no_lf (x : N) : no_lf (pretty x).
Proof.
  unfold pretty, pretty_N. destruct (decide (x = 0%N)); [reflexivity|].
  apply digits_no_lf, pretty_N_go_digits.
Qed.

Lemma pretty_Z_no_lf (z : Z) : no_lf (pretty z).
Proof.
  destruct z as [|p|p]; [reflexivity | apply (pretty_N_no_lf (N.pos p)) |].
  change (pretty (Z.neg p)) with ("-" +:+ pretty (N.pos p)).
  apply no_lf_app; [reflexivity | apply pretty_N_no_lf].
Qed.

Lemma succ_string_no_lf v next : succ_string v = Some next -> no_lf next.
Proof.
  unfold succ_string. destruct (strlong v); [|discriminate].
  intros [= <-]. apply pretty_Z_no_lf.
Qed.

Lemma blocked_files fs stdin pid state :
  fs !! RALPH_STATE_FILE = Some state ->
  exit_at (run fs stdin pid) = Block ->
  exists it cp next,
    ITERATION (FRONTMATTER state) = Some it
    /\ COMPLETION_PROMISE (FRONTMATTER state) = Some cp
    /\ succ_string it = Some next
    /\ decision (run fs stdin pid)
       = Some {| reason := PROMPT_TEXT state;
                 systemMessage := SYSTEM_MSG next cp |}
    /\ files (run fs stdin pid) = update pid next state fs.
Proof.
  intros Hs. unfold run. rewrite Hs.
  destruct (ITERATION (FRONTMATTER state)) as [it|]; [|discriminate].
  destruct (MAX_ITERATIONS (FRONTMATTER state)) as [mx|]; [|discriminate].
  destruct (COMPLETION_PROMISE (FRONTMATTER state)) as [cp|]; [|discriminate].
  destruct (negb (is_number it)); [discriminate|].
  destruct (negb (is_number mx)); [discriminate|].
  destruct (cap_reached it mx); [discriminate|].
  unfold after_cap.
  destruct (inspect fs (strip_nl stdin) cp) as [r|] eqn:E.
  - intros Hb. apply inspect_exit_at in E. rewrite Hb in E. discriminate.
  - unfold continue.
    destruct (String.eqb (PROMPT_TEXT state) ""); [discriminate|].
    destruct (succ_string it) as [next|] eqn:En; [|discriminate].
    intros _. exists it, cp, next. repeat split; try reflexivity. exact En.
Qed.

(** X12.  A blocked stop keeps the loop's settings, whatever the state file
    looks like: the file the run leaves reads the same cap and the same
    promise as the file it found, the reason of the decision is the prompt
    of the file it found, and the prompt of the new file is the same too
    when no line of it starts with the key of the counter. *)
Theorem block_keeps_header (fs : gmap string (list string)) (stdin : string)
    (pid : N) (state : list string) :
  fs !! RALPH_STATE_FILE = Some state ->
  Forall no_lf state ->
  exit_at (run fs stdin pid) = Block ->
  exists state',
    files (run fs stdin pid) !! RALPH_STATE_FILE = Some state'
    /\ MAX_ITERATIONS (FRONTMATTER state') = MAX_ITERATIONS (FRONTMATTER state)
    /\ COMPLETION_PROMISE (FRONTMATTER state')
       = COMPLETION_PROMISE (FRONTMATTER state)
    /\ (reason <$> decision (run fs stdin pid)) = Some (PROMPT_TEXT state)
    /\ (Forall (fun l => String.prefix "iteration: " l = false)
          (awk_body 0 state) ->
        PROMPT_TEXT state' = PROMPT_TEXT state).
Proof.
  intros Hs Hn Hb.
  destruct (blocked_files fs stdin pid state Hs Hb)
    as (it & cp & next & _ & _ & Hnext & Hd & Hf).
  destruct (update_frame next state (succ_string_no_lf it next Hnext) Hn pid fs)
    as (state' & H1 & H2 & H3 & H4).
  exists state'. rewrite Hf, Hd. auto.
Qed.

Lemma block_keeps_header_witness :
  let state := [ "---"; "max_iterations: 5"; "iteration:  2";
                 "completion_promise: null"; "note: kept"; "---";
                 "Fix the bug" ] in
  let fs := Sample.workdir state [Sample.assistant_line "working"] in
  exists state',
    files (run fs Sample.hook_input 4242) !! RALPH_STATE_FILE = Some state'
    /\ MAX_ITERATIONS (FRONTMATTER state') = MAX_ITERATIONS (FRONTMATTER state)
    /\ COMPLETION_PROMISE (FRONTMATTER state')
       = COMPLETION_PROMISE (FRONTMATTER state)
    /\ (reason <$> decision (run fs Sample.hook_input 4242))
       = Some (PROMPT_TEXT state)
    /\ (Forall (fun l => String.prefix "iteration: " l = false)
          (awk_body 0 state) ->
        PROMPT_TEXT state' = PROMPT_TEXT state).
Proof.
  intros state fs.
  apply (block_keeps_header fs Sample.hook_input 4242 state).
  - reflexivity.
  - repeat constructor.
  - vm_compute. reflexivity.
Defined.

(** X20.  The counter advances only where the colon of its key is followed
    by a blank.  When no line of the state file starts with the key and a
    blank, as in a header that reads [iteration:2], a blocked stop leaves
    the state file exactly as it found it; the next stop event is then
    judged on the same counter, and any number of stop events in a row can
    be blocked, whatever the cap. *)
Theorem counter_without_blank_stays (fs : gmap string (list string))
    (stdin : string) (pid : N) (state : list string) :
  fs !! RALPH_STATE_FILE = Some state ->
  Forall (fun l => String.prefix "iteration: " l = false) state ->
  exit_at (run fs stdin pid) = Block ->
  files (run fs stdin pid) !! RALPH_STATE_FILE = Some state
  /\ forall n, blocks n state.
Proof.
  intros Hs Hno Hb.
  assert (Hf : files (run fs stdin pid) !! RALPH_STATE_FILE = Some state).
  { destruct (blocked_files fs stdin pid state Hs Hb)
      as (it & cp & next & _ & _ & _ & _ & ->).
    rewrite (proj1 (update_files _ _ _ _)). f_equal. apply map_id_on.
    eapply Forall_impl; [exact Hno|]. intros l Hl. unfold sed_iteration.
    rewrite Hl. reflexivity. }
  split; [exact Hf|].
  induction n as [|n IH]; [apply blocks_O|].
  exact (blocks_S n fs stdin pid state state Hs Hb Hf IH).
Qed.

Lemma counter_without_blank_stays_witness :
  let state := [ "---"; "iteration:2"; "max_iterations: 3";
                 "completion_promise: null"; "---"; "Fix the bug" ] in
  let fs := Sample.workdir state [Sample.assistant_line "working"] in
  files (run fs Sample.hook_input 4242) !! RALPH_STATE_FILE = Some state
  /\ forall n, blocks n state.
Proof.
  intros state fs.
  apply (counter_without_blank_stays fs Sample.hook_input 4242 state).
  - reflexivity.
  - repeat constructor.
  - vm_compute. reflexivity.
Defined.

(** ** The exits of the shell, by what the files hold *)

(** *** A header without one of its fields *)

Lemma field_missing key post state :
  In key header_keys ->
  Forall no_lf state ->
  Forall (fun l => String.prefix key l = false)
    (sed_frontmatter false state) ->
  field key post (FRONTMATTER state) = None.
Proof.
  intros Hk Hs Hf. unfold field, FRONTMATTER.
  assert (K0 : String.prefix key "" = false)
    by (destruct Hk as [<- | [<- | [<- | []]]]; reflexivity).
  assert (Kd : forall s, String.prefix key (String "-" s) = false)
    by (destruct Hk as [<- | [<- | [<- | []]]]; reflexivity).
  rewrite (grep_variable key K0 Kd _ (sed_frontmatter_no_lf false state Hs)).
  unfold grep_prefix.
  replace (List.filter (String.prefix key) (sed_frontmatter false state))
    with (@nil string); [reflexivity|].
  symmetry. apply filter_nil_forall. intros l Hl.
  rewrite Forall_forall in Hf. apply Hf, list_elem_of_In, Hl.
Qed.

(** X13.  A state file whose header lacks one of the three fields, and so
    also a file without delimiter line: the shell exits with status 1,
    nothing is printed and no file changes. *)
Theorem header_field_missing (fs : gmap string (list string))
    (stdin : string) (pid : N) (state : list string) (key : string) :
  fs !! RALPH_STATE_FILE = Some state ->
  Forall no_lf state ->
  In key header_keys ->
  Forall (fun l => String.prefix key l = false) (sed_frontmatter false state)
  \/ Forall (fun l => is_delim l = false) state ->
  run fs stdin pid = shell_exit PipelineFailed fs.
Proof.
  intros Hs Hn Hk H.
  assert (Hf : Forall (fun l => String.prefix key l = false)
                 (sed_frontmatter false state)).
  { destruct H as [H | H]; [exact H|].
    rewrite (sed_frontmatter_no_delim _ H). constructor. }
  apply (run_missing_field fs stdin pid state Hs).
  unfold ITERATION, MAX_ITERATIONS, COMPLETION_PROMISE.
  destruct Hk as [<- | [<- | [<- | []]]].
  - left. apply field_missing; [left; reflexivity | assumption..].
  - right. left.
    apply field_missing; [right; left; reflexivity | assumption..].
  - right. right.
    apply field_missing; [right; right; left; reflexivity | assumption..].
Qed.

Lemma header_field_missing_witness :
  let state := [ "---"; "iteration: 2"; "completion_promise: null"; "---";
                 "Fix the bug" ] in
  let fs := Sample.workdir state [Sample.assistant_line "working"] in
  run fs Sample.hook_input 4242 = shell_exit PipelineFailed fs.
Proof.
  intros state fs.
  apply (header_field_missing fs Sample.hook_input 4242 state
           "max_iterations:").
  - reflexivity.
  - repeat constructor.
  - right. left. reflexivity.
  - left. repeat constructor.
Defined.

(** *** A payload without the key *)

Lemma grep_o_go_none skip s :
  contains key s = false -> grep_o_go path_at skip s = [].
Proof.
  revert skip. induction s as [|c r IH]; intros skip H; [reflexivity|].
  cbn [contains] in H. apply orb_false_iff in H as [H1 H2].
  cbn [grep_o_go]. destruct skip as [|k]; [|exact (IH k H2)].
  unfold path_at. rewrite H1. exact (IH 0%nat H2).
Qed.

Lemma grep_o_none ls :
  Forall (fun l => contains key l = false) ls -> grep_o path_at ls = [].
Proof.
  unfold grep_o. induction 1 as [|l r Hl _ IH]; [reflexivity|].
  cbn [map concat]. rewrite (grep_o_go_none 0 l Hl). exact IH.
Qed.

Lemma transcript_path_none input :
  contains key input = false -> TRANSCRIPT_PATH input = None.
Proof.
  intros H. unfold TRANSCRIPT_PATH.
  rewrite (grep_o_none _ (contains_echo key input eq_refl H)). reflexivity.
Qed.



(** ** The completion check on a marker pair *)

Lemma flatten_split_nl s : flatten (split_nl s) = nl_to_blank s +:+ " ".
Proof.
  induction s as [|c r IH]; [reflexivity|].
  cbn [split_nl nl_to_blank]. destruct (Ascii.eqb c LF).
  - cbn [flatten]. rewrite IH. reflexivity.
  - destruct (split_nl_head r) as (l & ls & t & E & _). rewrite E in *.
    rewrite sapp_cons, <- IH. reflexivity.
Qed.

Lemma nl_to_blank_app a b :
  nl_to_blank (a +:+ b) = nl_to_blank a +:+ nl_to_blank b.
Proof.
  induction a as [|c a IH]; [reflexivity|].
  rewrite sapp_cons. cbn [nl_to_blank]. rewrite IH. reflexivity.
Qed.

(** A pattern that holds neither a newline nor a blank occurs in the
    flattened text where it occurs in the text. *)
Lemma prefix_nl_to_blank pat s :
  has_char LF pat = false -> has_char " " pat = false ->
  String.prefix pat (nl_to_blank s) = String.prefix pat s.
Proof.
  revert s. induction pat as [|a pat IH]; intros s Hl Hb.
  - rewrite !prefix_empty. reflexivity.
  - cbn [has_char] in Hl, Hb.
    apply orb_false_iff in Hl as [Hl1 Hl2].
    apply orb_false_iff in Hb as [Hb1 Hb2].
    destruct s as [|c r]; [reflexivity|].
    cbn [nl_to_blank]. rewrite !prefix_cons, (IH r Hl2 Hb2).
    destruct (Ascii.eqb c LF) eqn:E; [|reflexivity].
    apply Ascii.eqb_eq in E as ->.
    rewrite (Ascii.eqb_sym a " "), (Ascii.eqb_sym a LF), Hb1, Hl1. reflexivity.
Qed.

Lemma contains_nl_to_blank pat s :
  has_char LF pat = false -> has_char " " pat = false ->
  contains pat (nl_to_blank s) = contains pat s.
Proof.
  intros Hl Hb. induction s as [|c r IH].
  - reflexivity.
  - change (nl_to_blank (String c r))
      with (String (if Ascii.eqb c LF then " "%char else c) (nl_to_blank r)).
    cbn [contains]. rewrite <- IH.
    change (String (if Ascii.eqb c LF then " "%char else c) (nl_to_blank r))
      with (nl_to_blank (String c r)).
    rewrite (prefix_nl_to_blank pat (String c r) Hl Hb). reflexivity.
Qed.

Lemma sed_promise_absent s :
  contains "<promise>" s = false -> sed_promise s = None.
Proof.
  induction s as [|c r IH]; intros H; [reflexivity|].
  cbn [contains] in H. apply orb_false_iff in H as [H1 H2].
  cbn [sed_promise]. rewrite (IH H2). unfold promise_at. rewrite H1.
  reflexivity.
Qed.

Lemma sed_promise_before pre t p :
  sed_promise t = Some p -> sed_promise (pre +:+ t) = Some p.
Proof.
  intros H. induction pre as [|c pre IH]; [exact H|].
  rewrite sapp_cons. cbn [sed_promise]. rewrite IH. reflexivity.
Qed.

Lemma sed_promise_pair pre p post :
  has_char "<" p = false ->
  contains "<promise>" post = false ->
  sed_promise (pre +:+ "<promise>" +:+ p +:+ "</promise>" +:+ post) = Some p.
Proof.
  intros Hp Hpost. apply sed_promise_before.
  change ("<promise>" +:+ p +:+ "</promise>" +:+ post)
    with (String "<" ("promise>" +:+ p +:+ "</promise>" +:+ post)).
  cbn [sed_promise]. rewrite sed_promise_absent.
  - apply promise_at_spec. exists post. split; [reflexivity | exact Hp].
  - rewrite (contains_first "<" "promise>" "promise>" _ eq_refl).
    rewrite (contains_first "<" "promise>" p _ Hp).
    change ("</promise>" +:+ post) with (String "<" ("/promise>" +:+ post)).
    cbn [contains].
    rewrite (contains_first "<" "promise>" "/promise>" _ eq_refl), Hpost.
    reflexivity.
Qed.

Lemma has_char_nl_to_blank s :
  has_char "<" (nl_to_blank s) = has_char "<" s.
Proof.
  induction s as [|c r IH]; [reflexivity|].
  cbn [nl_to_blank has_char]. rewrite IH.
  destruct (Ascii.eqb c LF) eqn:E; [|reflexivity].
  apply Ascii.eqb_eq in E as ->. reflexivity.
Qed.

Lemma remove_space_nl_to_blank s :
  remove_chars Ascii.is_space (nl_to_blank s) = remove_chars Ascii.is_space s.
Proof.
  induction s as [|c r IH]; [reflexivity|].
  cbn [nl_to_blank remove_chars]. rewrite IH.
  destruct (Ascii.eqb c LF) eqn:E; [|reflexivity].
  apply Ascii.eqb_eq in E as ->. reflexivity.
Qed.

Lemma promise_text_pair pre p post :
  has_char "<" p = false ->
  contains "<promise>" post = false ->
  PROMISE_TEXT (pre +:+ "<promise>" +:+ p +:+ "</promise>" +:+ post)
  = remove_chars Ascii.is_space p.
Proof.
  intros Hp Hpost.
  unfold PROMISE_TEXT. rewrite (echo_text "<"); try reflexivity.
  2:{ rewrite !has_char_app. cbn [has_char Ascii.eqb].
      rewrite orb_true_r. reflexivity. }
  rewrite flatten_split_nl, !nl_to_blank_app, !sapp_assoc.
  change (nl_to_blank "<promise>") with "<promise>".
  change (nl_to_blank "</promise>") with "</promise>".
  rewrite sed_promise_pair.
  - apply remove_space_nl_to_blank.
  - rewrite has_char_nl_to_blank. exact Hp.
  - rewrite (contains_stop "<promise>" _ " " "" eq_refl eq_refl).
    rewrite (contains_nl_to_blank "<promise>" _ eq_refl eq_refl), Hpost.
    reflexivity.
Qed.

(** *** The text that [sed] is given *)

Lemma span_end_blank u :
  span not_lt (u +:+ " ")
  = match span not_lt u with
    | (a, "") => (a +:+ " ", "")
    | (a, b) => (a, b +:+ " ")
    end.
Proof.
  induction u as [|c r IH]; [reflexivity|].
  rewrite sapp_cons. cbn [span]. destruct (not_lt c); [|reflexivity].
  rewrite IH. destruct (span not_lt r) as [a b]. destruct b; reflexivity.
Qed.

Lemma promise_at_end_blank t : promise_at (t +:+ " ") = promise_at t.
Proof.
  unfold promise_at.
  rewrite (prefix_stop "<promise>" t " " "" eq_refl eq_refl).
  destruct (String.prefix "<promise>" t) eqn:Hp; [|reflexivity].
  apply prefix_app in Hp as [u ->]. rewrite sapp_assoc.
  change 9 with (String.length "<promise>"). rewrite !sdrop_app.
  rewrite span_end_blank. destruct (span not_lt u) as [a b].
  destruct b as [|c b]; [reflexivity|].
  rewrite (prefix_stop "</promise>" (String c b) " " "" eq_refl eq_refl).
  reflexivity.
Qed.

(** The blank that stands for the newline of [echo] changes nothing. *)
Lemma sed_promise_end_blank s : sed_promise (s +:+ " ") = sed_promise s.
Proof.
  induction s as [|c r IH]; [reflexivity|].
  rewrite sapp_cons. cbn [sed_promise]. rewrite IH.
  change (String c (r +:+ " ")) with (String c r +:+ " ").
  rewrite promise_at_end_blank. reflexivity.
Qed.

Lemma echo_plain s : echo_option s = false -> echo s = split_nl s.
Proof.
  unfold echo, echo_option. destruct s as [|a s']; [reflexivity|].
  destruct (Ascii.eqb a "-") eqn:Ha.
  - apply Ascii.eqb_eq in Ha as ->. destruct s' as [|d r]; [reflexivity|].
    intros ->. reflexivity.
  - destruct a as [[] [] [] [] [] [] [] []]; try reflexivity; discriminate.
Qed.

Lemma echo_option_flat s :
  echo_option s = true ->
  has_char "<" s = false
  /\ (flatten (echo s) = "" \/ flatten (echo s) = " ").
Proof.
  unfold echo, echo_option. destruct s as [|a s']; [discriminate|].
  destruct (Ascii.eqb a "-") eqn:Ha.
  - apply Ascii.eqb_eq in Ha as ->. destruct s' as [|d r]; [discriminate|].
    intros E. rewrite E. split.
    + cbn [has_char Ascii.eqb]. apply (flags_no_char "<" _ eq_refl E).
    + destruct (has_char "n" (String d r)); [left | right]; reflexivity.
  - destruct a as [[] [] [] [] [] [] [] []]; try discriminate.
Qed.

Lemma absent_without_first c0 pat s :
  has_char c0 s = false -> contains (String c0 pat) s = false.
Proof.
  intros H. rewrite <- (sapp_nil_r s), (contains_first c0 pat s "" H).
  reflexivity.
Qed.

Lemma sed_promise_flat text :
  sed_promise (flatten (echo text)) = sed_promise (nl_to_blank text).
Proof.
  destruct (echo_option text) eqn:E.
  - destruct (echo_option_flat _ E) as [Hlt Hflat].
    assert (Hn : sed_promise (nl_to_blank text) = None).
    { apply sed_promise_absent.
      rewrite (contains_nl_to_blank "<promise>" text eq_refl eq_refl).
      apply absent_without_first, Hlt. }
    rewrite Hn. destruct Hflat as [-> | ->]; reflexivity.
  - rewrite (echo_plain _ E), flatten_split_nl. apply sed_promise_end_blank.
Qed.

(** C6, as amended.  A text that [echo] does not read as options is
    flattened to the text with every newline replaced by a blank, and one
    more blank for the newline that [echo] adds; the flattened text holds no
    newline.  For every text, what is extracted from the flattened text is
    what is extracted from the text with its newlines replaced by blanks:
    the payload of the last place of that text where an opening token, a
    payload free of [<] and a closing token stand, which is then compared
    without its whitespace; when there is no such place nothing is
    extracted. *)
Theorem C6_last_marker_pair (text : string) :
  (echo_option text = false ->
   flatten (echo text) = nl_to_blank text +:+ " ")
  /\ has_char LF (flatten (echo text)) = false
  /\ sed_promise (flatten (echo text)) = sed_promise (nl_to_blank text)
  /\ match sed_promise (nl_to_blank text) with
     | Some p =>
         PROMISE_TEXT text = remove_chars Ascii.is_space p
         /\ has_char "<" p = false
         /\ exists pre post,
              nl_to_blank text
              = pre +:+ "<promise>" +:+ p +:+ "</promise>" +:+ post
              /\ forall pre' p' post',
                   nl_to_blank text
                   = pre' +:+ "<promise>" +:+ p' +:+ "</promise>" +:+ post' ->
                   has_char "<" p' = false ->
                   String.length pre' <= String.length pre
     | None =>
         PROMISE_TEXT text = ""
         /\ forall pre' p' post',
              nl_to_blank text
              = pre' +:+ "<promise>" +:+ p' +:+ "</promise>" +:+ post' ->
              has_char "<" p' = true
     end.
Proof.
  split; [intros E; rewrite (echo_plain _ E); apply flatten_split_nl|].
  split; [apply flatten_no_lf, echo_no_lf|].
  split; [apply sed_promise_flat|].
  unfold PROMISE_TEXT. rewrite sed_promise_flat.
  destruct (sed_promise (nl_to_blank text)) as [p|] eqn:E.
  - destruct (sed_promise_some _ _ E) as (pre & t & Hs & Ht & Hmax).
    apply promise_at_spec in Ht as (post & -> & Hlt).
    split; [reflexivity|]. split; [exact Hlt|].
    exists pre, post. split; [exact Hs|].
    intros pre' p' post' Hs' Hlt'. apply (Hmax pre' _ Hs').
    intros Hn.
    assert (Hsome : promise_at ("<promise>" +:+ p' +:+ "</promise>" +:+ post') = Some p')
      by (apply promise_at_spec; eauto).
    congruence.
  - split; [reflexivity|].
    intros pre' p' post' Hs'.
    destruct (has_char "<" p') eqn:Hlt'; [reflexivity|].
    pose proof (sed_promise_none _ E pre' _ Hs') as Hn.
    assert (Hsome : promise_at ("<promise>" +:+ p' +:+ "</promise>" +:+ post') = Some p')
      by (apply promise_at_spec; eauto).
    congruence.
Qed.

(** X15.  The completion check reads the payload of a marker pair wherever
    it stands in the text, over line breaks too: when no opening token
    follows the pair, the text compared with the promise is the payload
    without its whitespace; the check succeeds exactly when a promise is set
    and that text is not empty and equals the promise without its blanks. *)
Theorem promise_pair_detected (pre p post promise : string) :
  has_char "<" p = false ->
  contains "<promise>" post = false ->
  let text := pre +:+ "<promise>" +:+ p +:+ "</promise>" +:+ post in
  PROMISE_TEXT text = remove_chars Ascii.is_space p
  /\ matches text promise
     = promise_set promise
       && negb (String.eqb (remove_chars Ascii.is_space p) "")
       && String.eqb (remove_chars Ascii.is_space p) (strip_blanks promise).
Proof.
  intros Hp Hpost text.
  pose proof (promise_text_pair pre p post Hp Hpost) as Ht. fold text in Ht.
  split; [exact Ht|]. unfold matches. rewrite Ht, andb_assoc. reflexivity.
Qed.

Lemma promise_pair_detected_witness :
  let text := "All tests pass." +:+ str LF +:+ "<promise>" +:+ "ALL  DONE"
              +:+ "</promise>" +:+ " Bye." in
  PROMISE_TEXT text = remove_chars Ascii.is_space "ALL  DONE"
  /\ matches text "ALL DONE"
     = promise_set "ALL DONE"
       && negb (String.eqb (remove_chars Ascii.is_space "ALL  DONE") "")
       && String.eqb (remove_chars Ascii.is_space "ALL  DONE")
            (strip_blanks "ALL DONE").
Proof.
  apply (promise_pair_detected ("All tests pass." +:+ str LF) "ALL  DONE"
           " Bye." "ALL DONE"); reflexivity.
Defined.

(** ** The text of a turn with one text block *)

Lemma plain_spec text c :
  all_chars plain text = true ->
  In c [DQ; BS; LF; "{"%char; "}"%char] -> has_char c text = false.
Proof.
  intros H Hc. induction text as [|d r IH]; [reflexivity|].
  cbn [all_chars] in H. apply andb_true_iff in H as [Hd Hr].
  cbn [has_char]. rewrite (IH Hr), orb_false_r.
  unfold plain in Hd. apply negb_true_iff in Hd.
  repeat (apply orb_false_iff in Hd as [Hd ?]).
  destruct Hc as [<- | [<- | [<- | [<- | [<- | []]]]]]; rewrite Ascii.eqb_sym;
    assumption.
Qed.

Section TextBlock.
Variable text : string.
Hypothesis text_plain : all_chars plain text = true.

Lemma text_no_dq : has_char DQ text = false.
Proof. apply (plain_spec text DQ text_plain). cbn [In]. tauto. Qed.

Lemma text_no_bs : has_char BS text = false.
Proof. apply (plain_spec text BS text_plain). cbn [In]. tauto. Qed.

Lemma text_no_nl : has_char LF text = false.
Proof. apply (plain_spec text LF text_plain). cbn [In]. tauto. Qed.

Lemma text_no_open : has_char "{" text = false.
Proof. apply (plain_spec text "{" text_plain). cbn [In]. tauto. Qed.

Lemma text_no_close : has_char "}" text = false.
Proof. apply (plain_spec text "}" text_plain). cbn [In]. tauto. Qed.

Lemma block_no_content_open :
  contains content_open
    ("content" +:+ str DQ +:+ ":[" +:+ text_block text) = false.
Proof.
  unfold text_block, q. rewrite !sapp_cons, !sapp_nil_l. simpl.
  change (String.prefix (("content" +:+ str DQ) +:+ ":[")
            ("" +:+ text +:+ str DQ +:+ "}"))
    with (String.prefix ("content" +:+ String DQ ":[")
            (text +:+ String DQ "}")).
  rewrite (prefix_stop_at DQ "content" ":[" text "}" eq_refl text_no_dq).
  rewrite andb_false_r. cbn [orb].
  change ("" +:+ text +:+ str DQ +:+ "}") with (text +:+ String DQ "}").
  unfold content_open, q. rewrite sapp_cons.
  rewrite (contains_first DQ _ text _ text_no_dq). reflexivity.
Qed.

Lemma tail_absent c0 pat :
  has_char c0 text = false ->
  contains (String c0 pat) (String DQ "}") = false ->
  contains (String c0 pat) (text +:+ String DQ "}") = false.
Proof. apply absent_after. Qed.

Lemma block_no_newline_block :
  contains newline_block (text_block text) = false.
Proof.
  unfold text_block, q. rewrite !sapp_cons, !sapp_nil_l. simpl.
  change ("" +:+ text +:+ str DQ +:+ "}") with (text +:+ String DQ "}").
  change (String.prefix ("" +:+ bs_n +:+ str DQ) (text +:+ String DQ "}"))
    with (String.prefix (String BS (String "n" (str DQ)))
            (text +:+ String DQ "}")).
  rewrite (prefix_absent _ (text +:+ String DQ "}")
             (tail_absent BS _ text_no_bs eq_refl)).
  cbn [orb].
  apply absent_after; [exact text_no_open | reflexivity].
Qed.

Lemma block_no_block_sep : contains block_sep (text_block text) = false.
Proof.
  unfold text_block, q. rewrite !sapp_cons, !sapp_nil_l. simpl.
  change ("" +:+ text +:+ str DQ +:+ "}") with (text +:+ String DQ "}").
  apply absent_after; [exact text_no_close | reflexivity].
Qed.

Lemma block_no_bs_dq : contains bs_dq (text_block text) = false.
Proof.
  unfold text_block, q. rewrite !sapp_cons, !sapp_nil_l. simpl.
  change ("" +:+ text +:+ str DQ +:+ "}") with (text +:+ String DQ "}").
  apply absent_after; [exact text_no_bs | reflexivity].
Qed.

Lemma block_no_bs_n : contains bs_n (text_block text) = false.
Proof.
  unfold text_block, q. rewrite !sapp_cons, !sapp_nil_l. simpl.
  change ("" +:+ text +:+ str DQ +:+ "}") with (text +:+ String DQ "}").
  apply absent_after; [exact text_no_bs | reflexivity].
Qed.

Lemma block_no_lf : no_lf (text_block text).
Proof.
  unfold no_lf, text_block. rewrite !has_char_app, text_no_nl. reflexivity.
Qed.

Lemma sed_content_block :
  sed_content (Sample.assistant_line text) = Some (text_block text).
Proof.
  unfold sed_content.
  assert (E1 : Sample.assistant_line text
               = ("{" +:+ role_assistant +:+ "," +:+ content_open
                  +:+ text_block text) +:+ "]" +:+ "}").
  { unfold Sample.assistant_line, text_block.
    rewrite !sapp_assoc. reflexivity. }
  rewrite E1, (split_last_found "]" "" _ "}" eq_refl).
  assert (E2 : "{" +:+ role_assistant +:+ "," +:+ content_open
               +:+ text_block text
               = ("{" +:+ role_assistant +:+ ",")
                 +:+ String DQ ("content" +:+ str DQ +:+ ":[")
                 +:+ text_block text).
  { rewrite !sapp_assoc. reflexivity. }
  rewrite E2, (split_last_found DQ _ _ _ block_no_content_open).
  reflexivity.
Qed.

(** Lines 102-116 on a transcript line with one block of plain text: the
    variable holds the block as it is written in the line, its braces and
    field names included. *)
Lemma last_output_block :
  LAST_OUTPUT (Sample.assistant_line text) = text_block text.
Proof.
  assert (Hp : primary_text (Sample.assistant_line text) = text_block text).
  { unfold primary_text.
    assert (He : echo (Sample.assistant_line text)
                 = [Sample.assistant_line text]).
    { change (echo (Sample.assistant_line text))
        with (split_nl (Sample.assistant_line text)).
      apply split_nl_line. unfold no_lf, Sample.assistant_line.
      rewrite !has_char_app, text_no_nl. reflexivity. }
    rewrite He.
    change (omap sed_content [Sample.assistant_line text])
      with (match sed_content (Sample.assistant_line text) with
            | Some y => [y]
            | None => []
            end).
    rewrite sed_content_block. cbn [map].
    rewrite (replace_absent newline_block bs_n (text_block text)
               block_no_newline_block).
    rewrite (replace_absent block_sep bs_n (text_block text)
               block_no_block_sep).
    rewrite (replace_absent bs_dq (str DQ) (text_block text) block_no_bs_dq).
    unfold sed_g. cbn [map concat].
    rewrite (replace_absent bs_n (str LF) (text_block text) block_no_bs_n).
    rewrite (split_nl_line _ block_no_lf). cbn [app map].
    assert (Hs : strip_edge_quotes (text_block text) = text_block text).
    { unfold strip_edge_quotes.
      change (text_block text)
        with (String "{" (q "type" +:+ ":" +:+ q "text" +:+ "," +:+ text_open
                          +:+ text +:+ str DQ +:+ "}")).
      cbv beta iota. change (Ascii.eqb "{" DQ) with false. cbv iota.
      change (String "{" (q "type" +:+ ":" +:+ q "text" +:+ "," +:+ text_open
                          +:+ text +:+ str DQ +:+ "}"))
        with (text_block text).
      replace (text_block text)
        with (("{" +:+ q "type" +:+ ":" +:+ q "text" +:+ "," +:+ text_open
               +:+ text +:+ str DQ) +:+ str "}") at 1
        by (unfold text_block; rewrite !sapp_assoc; reflexivity).
      rewrite chop_end. reflexivity. }
    rewrite Hs. apply cmdsubst_line, block_no_lf. }
  unfold LAST_OUTPUT. rewrite Hp. reflexivity.
Qed.

End TextBlock.



(** ** The path of the transcript *)

Lemma grep_o_go_skip at_ a post :
  grep_o_go at_ (String.length a) (a +:+ post) = grep_o_go at_ 0 post.
Proof.
  induction a as [|c a IH]; [|exact IH].
  rewrite sapp_nil_l. destruct post; reflexivity.
Qed.

Lemma grep_o_go_before pre x :
  contains "transcript_path" pre = false ->
  grep_o_go path_at 0 (pre +:+ String DQ x)
  = grep_o_go path_at 0 (String DQ x).
Proof.
  induction pre as [|c pre IH]; intros H; [reflexivity|].
  cbn [contains] in H. apply orb_false_iff in H as [H1 H2].
  rewrite sapp_cons. cbn [grep_o_go].
  assert (Hp : String.prefix key (String c (pre +:+ String DQ x)) = false).
  { unfold key, q. rewrite prefix_cons.
    destruct (String.prefix ("transcript_path" +:+ str DQ)
                (pre +:+ String DQ x)) eqn:E; [|apply andb_false_r].
    apply (prefix_bridge DQ "transcript_path" "" pre x eq_refl) in E.
    destruct pre as [|d pre]; [discriminate|].
    cbn [contains] in H2. rewrite E in H2. discriminate. }
  unfold path_at at 1. rewrite Hp. exact (IH H2).
Qed.

Lemma grep_o_go_here (at_ : string -> option (string * nat)) c r post m :
  at_ (String c (r +:+ post)) = Some (m, S (String.length r)) ->
  grep_o_go at_ 0 (String c (r +:+ post)) = m :: grep_o_go at_ 0 post.
Proof.
  intros H. cbn [grep_o_go]. rewrite H. cbn [Nat.sub]. rewrite Nat.sub_0_r.
  rewrite grep_o_go_skip. reflexivity.
Qed.

Section PathField.
Variables (pre sp1 sp2 path post : string).
Hypothesis pre_no_key : contains "transcript_path" pre = false.
Hypothesis pre_no_lf : has_char LF pre = false.
Hypothesis sp1_space : all_chars Ascii.is_space sp1 = true.
Hypothesis sp1_no_lf : has_char LF sp1 = false.
Hypothesis sp2_space : all_chars Ascii.is_space sp2 = true.
Hypothesis sp2_no_lf : has_char LF sp2 = false.
Hypothesis path_no_dq : has_char DQ path = false.
Hypothesis path_no_lf : has_char LF path = false.
Hypothesis post_no_key : contains key post = false.
Hypothesis post_no_lf : has_char LF post = false.

Lemma path_at_field :
  path_at (path_field sp1 sp2 path +:+ post)
  = Some (path_field sp1 sp2 path, String.length (path_field sp1 sp2 path)).
Proof.
  unfold path_at, path_field.
  assert (Hk : String.prefix key ((key +:+ sp1 +:+ ":" +:+ sp2 +:+ q path)
                                  +:+ post) = true).
  { apply prefix_app. eexists. rewrite !sapp_assoc. reflexivity. }
  rewrite Hk. rewrite !sapp_assoc, sdrop_app.
  change (":" +:+ sp2 +:+ q path +:+ post)
    with (String ":" (sp2 +:+ q path +:+ post)).
  rewrite (span_stop _ sp1 ":" _ sp1_space eq_refl).
  unfold q at 1. rewrite sapp_cons.
  rewrite (span_stop _ sp2 DQ _ sp2_space eq_refl).
  unfold quoted_at.
  change (String.prefix (str DQ) (String DQ ((path +:+ str DQ) +:+ post)))
    with (String.prefix "" ((path +:+ str DQ) +:+ post)).
  rewrite prefix_empty.
  change (sdrop (String.length (str DQ))
            (String DQ ((path +:+ str DQ) +:+ post)))
    with ((path +:+ str DQ) +:+ post).
  rewrite sapp_assoc. change (str DQ +:+ post) with (String DQ post).
  assert (Hn : all_chars not_dq path = true).
  { clear -path_no_dq. induction path as [|c r IH]; [reflexivity|].
    cbn [has_char] in path_no_dq.
    apply orb_false_iff in path_no_dq as [Hc Hr].
    cbn [all_chars]. unfold not_dq at 1. rewrite Ascii.eqb_sym, Hc.
    exact (IH Hr). }
  rewrite (span_stop _ path DQ post Hn eq_refl).
  assert (Hq : str DQ +:+ path +:+ str DQ = q path) by reflexivity.
  rewrite Hq, !sapp_len. unfold q. cbn [String.length str].
  rewrite sapp_len. cbn [String.length].
  do 2 f_equal. change (String.length (str DQ)) with 1. lia.
Qed.

Lemma sed_path_value_field : sed_path_value (path_field sp1 sp2 path) = path.
Proof.
  unfold sed_path_value, path_field.
  replace (key +:+ sp1 +:+ ":" +:+ sp2 +:+ q path)
    with (((key +:+ sp1 +:+ ":" +:+ sp2) +:+ str DQ +:+ path) +:+ str DQ)
    by (unfold q; rewrite !sapp_assoc; reflexivity).
  rewrite chop_end, Ascii.eqb_refl.
  assert (Hc : contains (str DQ) ("" +:+ path) = false)
    by (rewrite sapp_nil_l, contains_char; exact path_no_dq).
  unfold str at 1 2. unfold str in Hc.
  rewrite (split_last_found DQ "" _ path Hc). reflexivity.
Qed.

Lemma transcript_path_field :
  TRANSCRIPT_PATH (pre +:+ path_field sp1 sp2 path +:+ post) = Some path.
Proof.
  unfold TRANSCRIPT_PATH.
  pose proof path_at_field as Hp. pose proof sed_path_value_field as Hv.
  assert (Hf : path_field sp1 sp2 path
               = String DQ ("transcript_path" +:+ str DQ +:+ sp1 +:+ ":"
                            +:+ sp2 +:+ q path)).
  { unfold path_field, key, q. rewrite !sapp_cons, !sapp_assoc. reflexivity. }
  assert (Hl : has_char LF (path_field sp1 sp2 path) = false).
  { unfold path_field, q. rewrite !has_char_app. cbn [has_char].
    rewrite !has_char_app, sp1_no_lf, sp2_no_lf, path_no_lf. reflexivity. }
  rewrite Hf in Hp, Hv, Hl |- *.
  set (rest := "transcript_path" +:+ str DQ +:+ sp1 +:+ ":" +:+ sp2
               +:+ q path) in *.
  clearbody rest. clear Hf.
  assert (He : echo (pre +:+ String DQ rest +:+ post)
               = [pre +:+ String DQ rest +:+ post]).
  { rewrite (echo_text DQ).
    - apply split_nl_line. unfold no_lf.
      rewrite !has_char_app, pre_no_lf, post_no_lf, Hl. reflexivity.
    - rewrite !has_char_app. cbn [has_char]. rewrite Ascii.eqb_refl.
      cbn [orb]. apply orb_true_r.
    - reflexivity.
    - reflexivity. }
  rewrite He. unfold grep_o. cbn [map concat]. rewrite app_nil_r.
  rewrite sapp_cons in Hp |- *. cbn [String.length] in Hp.
  rewrite (grep_o_go_before _ _ pre_no_key).
  rewrite (grep_o_go_here path_at DQ rest post _ Hp).
  rewrite (grep_o_go_none 0 post post_no_key). cbn [map]. rewrite Hv.
  rewrite (cmdsubst_line _ path_no_lf). reflexivity.
Qed.

End PathField.

(** X17.  Line 61 reads back the path the host wrote: in a payload of one
    line that holds the field [transcript_path] once, with a value free of
    double quotes, the variable is that value, whatever blanks stand around
    the colon. *)
Theorem transcript_path_read (pre sp1 sp2 path post : string) :
  contains "transcript_path" pre = false ->
  has_char LF pre = false ->
  all_chars Ascii.is_space sp1 = true -> has_char LF sp1 = false ->
  all_chars Ascii.is_space sp2 = true -> has_char LF sp2 = false ->
  has_char DQ path = false -> has_char LF path = false ->
  contains key post = false -> has_char LF post = false ->
  TRANSCRIPT_PATH (pre +:+ path_field sp1 sp2 path +:+ post) = Some path.
Proof. apply transcript_path_field. Qed.

Lemma transcript_path_read_witness :
  TRANSCRIPT_PATH
    (("{" +:+ q "session_id" +:+ ":" +:+ q "abc" +:+ ",")
     +:+ path_field "" " " "/tmp/transcript.jsonl"
     +:+ ("," +:+ q "hook_event_name" +:+ ":" +:+ q "Stop" +:+ "}"))
  = Some "/tmp/transcript.jsonl".
Proof.
  apply (transcript_path_read
           ("{" +:+ q "session_id" +:+ ":" +:+ q "abc" +:+ ",") "" " "
           "/tmp/transcript.jsonl"
           ("," +:+ q "hook_event_name" +:+ ":" +:+ q "Stop" +:+ "}"));
    reflexivity.
Defined.

(** ** A stop event, end to end

    The last turn of the transcript is one block of plain text. *)

Lemma is_assistant_line text :
  is_assistant (Sample.assistant_line text) = true.
Proof.
  unfold is_assistant, Sample.assistant_line.
  change ("{" +:+ role_assistant +:+ "," +:+ content_open +:+ "{" +:+ q "type"
          +:+ ":" +:+ q "text" +:+ "," +:+ text_open +:+ text +:+ str DQ
          +:+ "}]}")
    with (String "{" (role_assistant +:+ "," +:+ content_open +:+ "{"
          +:+ q "type" +:+ ":" +:+ q "text" +:+ "," +:+ text_open +:+ text
          +:+ str DQ +:+ "}]}")).
  cbn [contains].
  assert (H : String.prefix role_assistant
                (role_assistant +:+ "," +:+ content_open +:+ "{" +:+ q "type"
                 +:+ ":" +:+ q "text" +:+ "," +:+ text_open +:+ text +:+ str DQ
                 +:+ "}]}") = true) by (apply prefix_app; eauto).
  destruct (role_assistant +:+ "," +:+ content_open +:+ "{" +:+ q "type"
            +:+ ":" +:+ q "text" +:+ "," +:+ text_open +:+ text +:+ str DQ
            +:+ "}]}"); cbn [contains]; rewrite H; apply orb_true_r.
Qed.

Section StopEvent.
Variable fs : gmap string (list string).
Variables (stdin : string) (pid : N).
Variables (it mx cp : string) (body : list string).
Variables (path : string) (before after : list string) (text : string).
Hypothesis state_layout :
  fs !! RALPH_STATE_FILE = Some (Sample.state_file it mx cp body).
Hypothesis it_number : is_number it = true.
Hypothesis mx_number : is_number mx = true.
Hypothesis below_cap : cap_reached it mx = false.
Hypothesis cp_no_lf : no_lf cp.
Hypothesis body_no_lf : Forall no_lf body.
Hypothesis body_stray :
  Forall (fun l => field_line l = false) (stray_header body).
Hypothesis payload_path : TRANSCRIPT_PATH (strip_nl stdin) = Some path.
Hypothesis path_given : path <> "".
Hypothesis transcript_at :
  fs !! path = Some (before ++ Sample.assistant_line text :: after).
Hypothesis last_turn : Forall (fun l => is_assistant l = false) after.
Hypothesis text_plain : all_chars plain text = true.

Lemma stop_event_run :
  run fs stdin pid
  = if matches (text_block text) (strip_quotes (drop_spaces cp))
    then exit0 CompletionDetected
           (completion_msg (strip_quotes (drop_spaces cp))) [] (rm_state fs)
    else continue fs pid (Sample.state_file it mx cp body) it
           (strip_quotes (drop_spaces cp)).
Proof.
  destruct (layout_fields it mx cp body
              (digits_no_lf _ (is_number_digits _ it_number))
              (digits_no_lf _ (is_number_digits _ mx_number))
              cp_no_lf body_no_lf body_stray) as (Pi & Pm & Pc & Pp).
  rewrite (number_drop_spaces _ it_number) in Pi.
  rewrite (number_drop_spaces _ mx_number) in Pm.
  rewrite (run_valid fs stdin pid _ it mx _ state_layout Pi Pm Pc it_number
             mx_number), below_cap.
  unfold after_cap, inspect. rewrite payload_path.
  rewrite (eqb_empty_false _ path_given), transcript_at.
  assert (Hl : last (grep_assistant
                       (before ++ Sample.assistant_line text :: after))
               = Some (Sample.assistant_line text)).
  { apply (last_assistant _ before _ after eq_refl (is_assistant_line text)).
    intros l Hl. rewrite Forall_forall in last_turn.
    apply last_turn, list_elem_of_In, Hl. }
  assert (Hline : no_lf (Sample.assistant_line text)).
  { unfold no_lf, Sample.assistant_line. rewrite !has_char_app.
    rewrite (text_no_nl text text_plain).
    reflexivity. }
  assert (Hh : has_assistant (before ++ Sample.assistant_line text :: after)
               = true).
  { unfold has_assistant.
    destruct (grep_assistant (before ++ Sample.assistant_line text :: after));
      [discriminate | reflexivity]. }
  rewrite Hh. cbn [negb]. unfold LAST_LINE, tail1. rewrite Hl.
  rewrite (cmdsubst_line _ Hline). unfold examine.
  rewrite (last_output_block text text_plain).
  change (String.eqb (Sample.assistant_line text) "") with false.
  change (String.eqb (text_block text) "") with false.
  cbv iota.
  destruct (matches (text_block text) (strip_quotes (drop_spaces cp)));
    reflexivity.
Qed.

End StopEvent.

Lemma matches_block_pair pre p post promise :
  has_char "<" p = false ->
  contains "<promise>" post = false ->
  promise_set promise = true ->
  remove_chars Ascii.is_space p <> "" ->
  remove_chars Ascii.is_space p = strip_blanks promise ->
  matches (text_block (pre +:+ "<promise>" +:+ p +:+ "</promise>" +:+ post))
    promise = true.
Proof.
  intros Hp Hpost Hset Hne Heq.
  assert (E : text_block (pre +:+ "<promise>" +:+ p +:+ "</promise>" +:+ post)
              = ("{" +:+ q "type" +:+ ":" +:+ q "text" +:+ "," +:+ text_open
                 +:+ pre) +:+ "<promise>" +:+ p +:+ "</promise>"
                +:+ (post +:+ String DQ "}")).
  { unfold text_block. rewrite !sapp_assoc. reflexivity. }
  rewrite E.
  assert (Hpost' : contains "<promise>" (post +:+ String DQ "}") = false).
  { rewrite (contains_stop "<promise>" post DQ "}" eq_refl eq_refl), Hpost.
    reflexivity. }
  unfold matches.
  rewrite (promise_text_pair
             ("{" +:+ q "type" +:+ ":" +:+ q "text" +:+ "," +:+ text_open
              +:+ pre) p (post +:+ String DQ "}") Hp Hpost').
  rewrite Hset, <- Heq, String.eqb_refl, (eqb_empty_false _ Hne). reflexivity.
Qed.

Lemma matches_block_absent text promise :
  all_chars plain text = true ->
  contains "<promise>" text = false ->
  matches (text_block text) promise = false.
Proof.
  intros Hplain Hc. unfold matches, PROMISE_TEXT.
  assert (He : echo (text_block text) = [text_block text]).
  { change (echo (text_block text)) with (split_nl (text_block text)).
    apply split_nl_line, block_no_lf, Hplain. }
  rewrite He. cbn [flatten]. rewrite sed_promise_absent.
  - cbn [String.eqb negb andb]. apply andb_false_r.
  - unfold text_block. rewrite !sapp_assoc.
    change ("{" +:+ q "type" +:+ ":" +:+ q "text" +:+ "," +:+ text_open
            +:+ text +:+ str DQ +:+ "}" +:+ String " " "")
      with (("{" +:+ q "type" +:+ ":" +:+ q "text" +:+ "," +:+ text_open)
            +:+ text +:+ String DQ "} ").
    rewrite (contains_first "<" "promise>"
               ("{" +:+ q "type" +:+ ":" +:+ q "text" +:+ "," +:+ text_open)
               (text +:+ String DQ "} ") eq_refl).
    rewrite (contains_stop "<promise>" text DQ "} " eq_refl eq_refl), Hc.
    reflexivity.
Qed.





